(** * Weatherscan API adapters: a shallow embedding and its properties

    Source: [webroot/js/api-adapters/openweathermap-adapter.js], which holds
    the two classes [OpenWeatherMapAdapter] and [RainViewerAdapter].

    Conventions of the embedding:
    - JavaScript numbers that the modelled code only compares, looks up or
      prints (condition identifiers, icon codes, epoch milliseconds, frame
      timestamps, style options) are integers of [Z];
    - a JavaScript value that may be [undefined]/[null] is an [option];
    - an [async] function is a state transformer over the adapter object and
      the outside world (clock, console, network), returning either a value
      or a thrown error. *)

From Stdlib Require Import ZArith String Ascii List Bool Lia QArith Qround Lqa.
From stdpp Require Import base decidable option list strings pretty sorting gmap fin_maps.

Local Open Scope string_scope.
Local Open Scope list_scope.
Local Open Scope Z_scope.

(** ** JavaScript primitives used by the adapters *)

Module Js.

(** [String.prototype.toLowerCase], on the ASCII range: the letters
    [A]..[Z] go to [a]..[z] and every other code unit is kept. *)
Definition lower_ascii (c : ascii) : ascii :=
  let n := nat_of_ascii c in
  if ((65 <=? n)%nat && (n <=? 90)%nat)%bool then ascii_of_nat (n + 32) else c.

Fixpoint toLowerCase (s : string) : string :=
  match s with
  | EmptyString => EmptyString
  | String c s' => String (lower_ascii c) (toLowerCase s')
  end.

(** [hay.startsWith(needle)]. *)
Fixpoint startsWith (needle hay : string) : bool :=
  match needle, hay with
  | EmptyString, _ => true
  | String _ _, EmptyString => false
  | String a n', String b h' => if Ascii.eqb a b then startsWith n' h' else false
  end.

(** [hay.includes(needle)]: some suffix of [hay] starts with [needle]. *)
Fixpoint includes (hay needle : string) : bool :=
  if startsWith needle hay then true
  else match hay with
       | EmptyString => false
       | String _ h' => includes h' needle
       end.

(** [s.endsWith(suffix)]. *)
Definition endsWith (s suffix : string) : bool :=
  let ls := String.length s in
  let lx := String.length suffix in
  if (lx <=? ls)%nat
  then String.eqb (String.substring (ls - lx) lx s) suffix
  else false.

(** Truthiness of a string: only the empty string is falsy. *)
Definition truthy_string (s : string) : bool :=
  negb (String.eqb s "").

(** Truthiness of a number: [0] is falsy ([NaN] is not an integer). *)
Definition truthy_number (n : Z) : bool := negb (n =? 0).

(** The values an option of a style object may hold. *)
Inductive Value :=
| Undefined
| Null
| Boolean (b : bool)
| Number (n : Z)
| Str (s : string).

Definition truthy (v : Value) : bool :=
  match v with
  | Undefined | Null => false
  | Boolean b => b
  | Number n => truthy_number n
  | Str s => truthy_string s
  end.

(** [a || b]. *)
Definition or_else (a b : Value) : Value := if truthy a then a else b.

(** The text of a value interpolated in a template literal. *)
Definition display (v : Value) : string :=
  match v with
  | Undefined => "undefined"
  | Null => "null"
  | Boolean true => "true"
  | Boolean false => "false"
  | Number n => pretty n
  | Str s => s
  end.

(** [String.prototype.toUpperCase], on the ASCII range. *)
Definition upper_ascii (c : ascii) : ascii :=
  let n := nat_of_ascii c in
  if ((97 <=? n)%nat && (n <=? 122)%nat)%bool then ascii_of_nat (n - 32) else c.

Fixpoint toUpperCase (s : string) : string :=
  match s with
  | EmptyString => EmptyString
  | String c s' => String (upper_ascii c) (toUpperCase s')
  end.

(** A text all of whose code units are below 128; on such texts the case
    conversions above are those of JavaScript. *)
Fixpoint ascii_only (s : string) : bool :=
  match s with
  | EmptyString => true
  | String c s' => (nat_of_ascii c <? 128)%nat && ascii_only s'
  end.

(** [s.split(sep)] for a separator of one character: never empty, and
    [""] for the empty text. *)
Fixpoint split (sep : ascii) (s : string) : list string :=
  match s with
  | EmptyString => [EmptyString]
  | String c s' =>
      if Ascii.eqb c sep then EmptyString :: split sep s'
      else match split sep s' with
           | w :: ws => String c w :: ws
           | [] => [String c EmptyString]
           end
  end.

(** [words.join(sep)]. *)
Fixpoint join (sep : string) (words : list string) : string :=
  match words with
  | [] => EmptyString
  | [w] => w
  | w :: ws => w +:+ sep +:+ join sep ws
  end.

(** [Math.round] on an exact quotient: the nearest integer, a half going
    up. *)
Definition round (q : Q) : Z := Qfloor (q + (1 # 2))%Q.

(** [a > b] and [a < b] on numbers. *)
Definition gt (a b : Q) : bool := negb (Qle_bool a b).
Definition lt (a b : Q) : bool := negb (Qle_bool b a).

(** The characters that [encodeURIComponent] keeps: letters, digits and
    [- _ . ! ~ * ' ( )]. *)
Definition unreserved (c : ascii) : bool :=
  let n := nat_of_ascii c in
  ((65 <=? n) && (n <=? 90) || (97 <=? n) && (n <=? 122) || (48 <=? n) && (n <=? 57)
   || (n =? 45) || (n =? 95) || (n =? 46) || (n =? 33) || (n =? 126) || (n =? 42)
   || (n =? 39) || (n =? 40) || (n =? 41))%nat.

Definition hex_digit (n : nat) : ascii :=
  match String.get n "0123456789ABCDEF" with
  | Some c => c
  | None => "0"%char
  end.

(** [encodeURIComponent] on a text given by its UTF-8 code units: a kept
    character stands for itself, any other unit becomes [%] and its two
    upper-case hexadecimal digits. *)
Fixpoint encodeURIComponent (s : string) : string :=
  match s with
  | EmptyString => EmptyString
  | String c s' =>
      if unreserved c then String c (encodeURIComponent s')
      else String "%" (String (hex_digit (nat_of_ascii c / 16))
                         (String (hex_digit (nat_of_ascii c mod 16))
                            (encodeURIComponent s')))
  end.

End Js.

(** ** The outside world of an [async] function

    The clock read by [Date.now()], the console, and the network reached
    through [fetch].  A request is answered by the network oracle, which is
    asked with the request's rank among all requests issued so far and its
    address. *)

Module Async.

Inductive Level := Log | Warn | Error.

(** What can be thrown (or a promise be rejected with). *)
Inductive Exn :=
| NetworkError (reason : string)   (* [fetch] itself rejected *)
| HttpError (status : Z)           (* [new Error(`HTTP error! status: ...`)] *)
| SyntaxError                      (* [response.json()] rejected *)
| TypeError (what : string).       (* raised while normalising a payload *)

Inductive Result (A : Type) :=
| Ok (a : A)
| Throw (e : Exn).
Arguments Ok {A} a.
Arguments Throw {A} e.

(** Sequencing of steps that may throw: the first throw ends the
    sequence. *)
#[global] Instance result_bind : MBind Result :=
  fun A B k r => match r with Ok a => k a | Throw e => Throw e end.

(** One call of a [console] method: its level, its first argument, and the
    error passed as second argument, if any. *)
Record Signal := { level : Level; text : string; attached : option Exn }.

Record World := {
  clock : Z;                 (* [Date.now()] *)
  console : list Signal;     (* oldest first *)
  requests : list string     (* addresses handed to [fetch], oldest first *)
}.

Definition emit (l : Level) (msg : string) (e : option Exn) (w : World) : World :=
  {| clock := clock w;
     console := console w ++ [ {| level := l; text := msg; attached := e |} ];
     requests := requests w |}.

Definition issue (address : string) (w : World) : World :=
  {| clock := clock w; console := console w; requests := requests w ++ [address] |}.

Definition advance (dt : Z) (w : World) : World :=
  {| clock := clock w + dt; console := console w; requests := requests w |}.

(** What [fetch] delivers: a rejection, or a response with its status and
    the outcome of parsing its body ([None]: [response.json()] rejects). *)
Inductive Response (Json : Type) :=
| Rejected (reason : string)
| Responded (status : Z) (body : option Json).
Arguments Rejected {Json} reason.
Arguments Responded {Json} status body.

(** A response together with the time that passed while it was awaited. *)
Record Reply (Json : Type) := { elapsed : Z; response : Response Json }.
Arguments elapsed {Json} r.
Arguments response {Json} r.

Definition Network (Json : Type) : Type := nat -> string -> Reply Json.

(** [response.ok]: the status is in the range 200-299. *)
Definition ok (status : Z) : bool := (200 <=? status) && (status <=? 299).

(** The body of the [try] block shared by both adapters, up to the parsed
    payload:
    [const response = await fetch(...);
     if (!response.ok) throw new Error(...);
     const data = await response.json();] *)
Definition parsed {Json : Type} (r : Response Json) : Result Json :=
  match r with
  | Rejected reason => Throw (NetworkError reason)
  | Responded status body =>
      if negb (ok status) then Throw (HttpError status)
      else match body with
           | Some data => Ok data
           | None => Throw SyntaxError
           end
  end.

(** [Promise.all] over promises that settle in the order of the list: the
    values in that order, or the first rejection. *)
Fixpoint promise_all {A : Type} (ps : list (Result A)) : Result (list A) :=
  match ps with
  | [] => Ok []
  | Ok a :: ps' =>
      match promise_all ps' with
      | Ok l => Ok (a :: l)
      | Throw e => Throw e
      end
  | Throw e :: _ => Throw e
  end.

End Async.

(** ** class OpenWeatherMapAdapter *)

Module OpenWeatherMapAdapter.
Import Async.

(** *** Code-mapping tables *)

(** The object literal [iconMap] of [mapOWMIconToWeathercom]; its four
    day/night entries depend on [isNight]. *)
Definition iconMap (isNight : bool) : gmap Z Z :=
  list_to_map
    [ (200, 38); (201, 38); (202, 38);
      (210, 37); (211, 37); (212, 37);
      (221, 37); (230, 38); (231, 38); (232, 38);
      (300, 9); (301, 9); (302, 9); (310, 9); (311, 9);
      (312, 9); (313, 9); (314, 9); (321, 9);
      (500, 11); (501, 12); (502, 12); (503, 12); (504, 12);
      (511, 10);
      (520, 11); (521, 11); (522, 12); (531, 12);
      (600, 14); (601, 16); (602, 41); (611, 10); (612, 10); (613, 10);
      (615, 5); (616, 5); (620, 14); (621, 14); (622, 16);
      (701, 20);
      (711, 22);
      (721, 19);
      (731, 19);
      (741, 20);
      (751, 19);
      (761, 19);
      (762, 19);
      (771, 23);
      (781, 0);
      (800, if isNight then 31 else 32);
      (801, if isNight then 33 else 30);
      (802, if isNight then 27 else 28);
      (803, if isNight then 27 else 28);
      (804, 26) ].

(** [const isNight = iconCode && iconCode.endsWith('n')], read as a
    condition: an absent or empty [iconCode] is falsy. *)
Definition isNight (iconCode : option string) : bool :=
  match iconCode with
  | None => false
  | Some s => Js.truthy_string s && Js.endsWith s "n"
  end.

(** [return iconMap[weatherId] || 44]: a missing property is [undefined],
    and [undefined] and [0] are both falsy. *)
Definition mapOWMIconToWeathercom (weatherId : Z) (iconCode : option string) : Z :=
  match iconMap (isNight iconCode) !! weatherId with
  | Some v => if Js.truthy_number v then v else 44
  | None => 44
  end.

(** The icon codes that the adapter can produce. *)
Definition IconCodes : list Z :=
  [5; 9; 10; 11; 12; 14; 16; 19; 20; 22; 23; 26; 27; 28; 30; 31; 32; 33;
   37; 38; 41; 44].

(** [_getAlertSeverity(tags)]: [tags] is the alert's optional array of
    free-text tags; [!tags] holds exactly when it is absent (an array,
    even an empty one, is truthy). *)
Definition _getAlertSeverity (tags : option (list string)) : Z :=
  match tags with
  | None => 3
  | Some ts =>
      if existsb (fun t => Js.includes (Js.toLowerCase t) "extreme") ts then 4
      else if existsb (fun t => Js.includes (Js.toLowerCase t) "severe") ts then 3
      else 2
  end.

(** *** The cached client *)

Section Client.
Context {Json : Type}.

(** A value of [this.cache]: [{ data, timestamp }]. *)
Record CacheEntry := { data : Json; timestamp : Z }.

Record Adapter := {
  apiKey : string;
  corsProxyUrl : string;
  baseUrl : string;
  cache : gmap string CacheEntry;
  cacheTTL : Z
}.

(** [constructor(apiKey, corsProxyUrl = 'http://localhost:8081/')]. *)
Definition new (key : string) (proxy : option string) : Adapter :=
  {| apiKey := key;
     corsProxyUrl := default "http://localhost:8081/" proxy;
     baseUrl := "https://api.openweathermap.org";
     cache := ∅;
     cacheTTL := 10 * 60 * 1000 |}.

Definition with_cache (c : gmap string CacheEntry) (this : Adapter) : Adapter :=
  {| apiKey := apiKey this; corsProxyUrl := corsProxyUrl this;
     baseUrl := baseUrl this; cache := c; cacheTTL := cacheTTL this |}.

(** [clearCache()] and [setCacheTTL(milliseconds)]. *)
Definition clearCache (this : Adapter) : Adapter := with_cache ∅ this.

Definition setCacheTTL (milliseconds : Z) (this : Adapter) : Adapter :=
  {| apiKey := apiKey this; corsProxyUrl := corsProxyUrl this;
     baseUrl := baseUrl this; cache := cache this; cacheTTL := milliseconds |}.

(** An [async] call runs synchronously up to its first [await] and is
    continued when the awaited promise settles.  [Pending] is the call
    suspended at that point: either it has already returned (a fresh
    cache hit), or it awaits the reply to the request of the given rank,
    holding on to its local [cached]. *)
Inductive Pending :=
| Settled (value : Json)
| Awaiting (rank : nat) (address : string) (cacheKey : string)
           (cached : option CacheEntry).

(** [_fetchWithCache(url, cacheKey)], from its entry to
    [await fetch(this.corsProxyUrl + url)]. *)
Definition _fetchWithCache_begin (this : Adapter) (url cacheKey : string)
    (w : World) : Pending * World :=
  let cached := cache this !! cacheKey in
  let miss :=
    (Awaiting (length (requests w)) (corsProxyUrl this +:+ url) cacheKey cached,
     issue (corsProxyUrl this +:+ url) w) in
  match cached with
  | Some c =>
      if clock w - timestamp c <? cacheTTL this
      then (Settled (data c), emit Log ("Using cached data for: " +:+ cacheKey) None w)
      else miss
  | None => miss
  end.

Variable net : Network Json.

(** [_fetchWithCache], from the reply to its return or throw. *)
Definition _fetchWithCache_resume (p : Pending) (this : Adapter) (w : World)
    : Result Json * Adapter * World :=
  match p with
  | Settled value => (Ok value, this, w)
  | Awaiting rank address cacheKey cached =>
      let reply := net rank address in
      let w := advance (elapsed reply) w in
      match parsed (response reply) with
      | Ok payload =>
          (Ok payload,
           with_cache (<[cacheKey := {| data := payload; timestamp := clock w |}]> (cache this)) this,
           w)
      | Throw error =>
          let w := emit Error "API fetch error:" (Some error) w in
          match cached with
          | Some c =>
              (Ok (data c), this,
               emit Warn "Using expired cache due to fetch error" None w)
          | None => (Throw error, this, w)
          end
      end
  end.

(** A call of [_fetchWithCache] that is awaited on its own. *)
Definition _fetchWithCache (this : Adapter) (url cacheKey : string) (w : World)
    : Result Json * Adapter * World :=
  let '(p, w) := _fetchWithCache_begin this url cacheKey w in
  _fetchWithCache_resume p this w.

End Client.

Arguments CacheEntry Json : clear implicits.
Arguments Adapter Json : clear implicits.
Arguments Pending Json : clear implicits.


(** *** The endpoints and the aggregator *)

(** A coordinate is a JavaScript number that the adapter only ever
    interpolates into template literals: it is identified with the text
    that the interpolation produces. *)
Definition Coord : Type := string.

Record Location := { loc_lat : Coord; loc_lon : Coord }.

(** The normalisation functions round and format IEEE-754 numbers and
    dates; they are taken as given, and any of them may throw on a payload
    of the wrong shape.  [field name x] is the property read [x.name],
    [slice a b x] the call [x.slice(a, b)], and [truthy x] the truthiness of
    a parsed payload. *)
Class Normalisation (Json Canon : Type) := {
  truthy : Json -> bool;
  field : string -> Json -> Result Json;
  slice : Z -> Z -> Json -> Result Json;
  transformCurrentConditions : Json -> Json -> Result Canon;
  transformHourlyForecast : Json -> Json -> Result Canon;
  transformDailyForecast : Json -> Json -> Result Canon;
  transformAlerts : Json -> Result Canon;
  transformAirQuality : Json -> Result (option Canon)
}.

Section Aggregator.
Context {Json Canon : Type} {normalisation : Normalisation Json Canon}.

(** The object returned by [getCompleteWeatherData]. *)
Record Snapshot := {
  current : Canon;
  hourly : Canon;
  daily : Canon;
  alerts : Canon;
  airQuality : option Canon;
  timezone : Json;
  lat : Json;
  lon : Json
}.

(** [getOneCallData(lat, lon)] up to its [await]. *)
Definition getOneCallData_begin (this : Adapter Json) (lat lon : Coord) (w : World)
    : Pending Json * World :=
  let url := baseUrl this +:+ "/data/3.0/onecall?" +:+
             "lat=" +:+ lat +:+ "&lon=" +:+ lon +:+ "&" +:+
             "units=imperial&" +:+
             "exclude=minutely&" +:+
             "appid=" +:+ apiKey this in
  let cacheKey := "onecall_" +:+ lat +:+ "_" +:+ lon in
  _fetchWithCache_begin this url cacheKey w.

(** [getAirQuality(lat, lon)] up to its [await]. *)
Definition getAirQuality_begin (this : Adapter Json) (lat lon : Coord) (w : World)
    : Pending Json * World :=
  let url := baseUrl this +:+ "/data/2.5/air_pollution?" +:+
             "lat=" +:+ lat +:+ "&lon=" +:+ lon +:+ "&" +:+
             "appid=" +:+ apiKey this in
  let cacheKey := "airquality_" +:+ lat +:+ "_" +:+ lon in
  _fetchWithCache_begin this url cacheKey w.

(** The object literal of [getCompleteWeatherData], its properties
    evaluated in source order; [airQualityData] is [None] when the
    [.catch] handler of the air-quality promise returned [null]. *)
Definition snapshot (oneCallData : Json) (airQualityData : option Json)
    : Result Snapshot :=
  c0 ← field "current" oneCallData;
  tz0 ← field "timezone" oneCallData;
  cur ← transformCurrentConditions c0 tz0;
  h0 ← field "hourly" oneCallData;
  h1 ← slice 0 48 h0;
  tz1 ← field "timezone" oneCallData;
  hs ← transformHourlyForecast h1 tz1;
  d0 ← field "daily" oneCallData;
  d1 ← slice 0 8 d0;
  tz2 ← field "timezone" oneCallData;
  ds ← transformDailyForecast d1 tz2;
  a0 ← field "alerts" oneCallData;
  als ← transformAlerts a0;
  aq ← match airQualityData with
        | Some a => if truthy a then transformAirQuality a else Ok None
        | None => Ok None
        end;
  tz ← field "timezone" oneCallData;
  la ← field "lat" oneCallData;
  lo ← field "lon" oneCallData;
  Ok {| current := cur; hourly := hs; daily := ds; alerts := als;
        airQuality := aq; timezone := tz; lat := la; lon := lo |}.

(** [getCompleteWeatherData(lat, lon)] up to [await Promise.all([...])]:
    both calls of the array literal have been made. *)
Definition getCompleteWeatherData_begin (this : Adapter Json) (lat lon : Coord)
    (w : World) : (Pending Json * Pending Json) * World :=
  let '(p1, w) := getOneCallData_begin this lat lon w in
  let '(p2, w) := getAirQuality_begin this lat lon w in
  ((p1, p2), w).

(** [getBatchWeatherData(locations)] up to [await Promise.all(promises)]:
    [locations.map] has called [getCompleteWeatherData] on every
    location, in order. *)
Fixpoint getBatchWeatherData_begin (this : Adapter Json) (locations : list Location)
    (w : World) : list (Location * (Pending Json * Pending Json)) * World :=
  match locations with
  | [] => ([], w)
  | loc :: rest =>
      let '(pp, w) := getCompleteWeatherData_begin this (loc_lat loc) (loc_lon loc) w in
      let '(pps, w) := getBatchWeatherData_begin this rest w in
      ((loc, pp) :: pps, w)
  end.

Variable net : Network Json.

Definition getOneCallData (this : Adapter Json) (lat lon : Coord) (w : World)
    : Result Json * Adapter Json * World :=
  let '(p, w) := getOneCallData_begin this lat lon w in
  _fetchWithCache_resume net p this w.

Definition getAirQuality (this : Adapter Json) (lat lon : Coord) (w : World)
    : Result Json * Adapter Json * World :=
  let '(p, w) := getAirQuality_begin this lat lon w in
  _fetchWithCache_resume net p this w.

(** [getCompleteWeatherData] from the replies on.  The replies are
    consumed in the order in which the requests were issued.  The
    air-quality promise carries the handler
    [.catch(e => { console.warn(...); return null; })], so that only the
    first promise can reject [Promise.all]; the outer [catch] logs and
    rethrows. *)
Definition getCompleteWeatherData_resume (pp : Pending Json * Pending Json)
    (this : Adapter Json) (w : World) : Result Snapshot * Adapter Json * World :=
  let '(r1, this, w) := _fetchWithCache_resume net (fst pp) this w in
  let '(r2, this, w) := _fetchWithCache_resume net (snd pp) this w in
  let '(airQualityData, w) :=
    match r2 with
    | Ok a => (Some a, w)
    | Throw e => (None, emit Warn "Air quality data unavailable:" (Some e) w)
    end in
  let outcome :=
    match r1 with
    | Ok oneCallData => snapshot oneCallData airQualityData
    | Throw e => Throw e
    end in
  match outcome with
  | Ok s => (Ok s, this, w)
  | Throw error =>
      (Throw error, this,
       emit Error "Error fetching complete weather data:" (Some error) w)
  end.

Definition getCompleteWeatherData (this : Adapter Json) (lat lon : Coord) (w : World)
    : Result Snapshot * Adapter Json * World :=
  let '(pp, w) := getCompleteWeatherData_begin this lat lon w in
  getCompleteWeatherData_resume pp this w.

(** The promises of [getBatchWeatherData] from the replies on: each is
    [getCompleteWeatherData(...).catch(error => { console.error(...);
    return null; })], so each is fulfilled, with a snapshot or [null]. *)
Fixpoint getBatchWeatherData_settle
    (pps : list (Location * (Pending Json * Pending Json)))
    (this : Adapter Json) (w : World)
    : list (Result (option Snapshot)) * Adapter Json * World :=
  match pps with
  | [] => ([], this, w)
  | (loc, pp) :: rest =>
      let '(r, this, w) := getCompleteWeatherData_resume pp this w in
      let '(v, w) :=
        match r with
        | Ok s => (Some s, w)
        | Throw error =>
            (None,
             emit Error ("Error fetching weather for " +:+ loc_lat loc +:+ "," +:+ loc_lon loc +:+ ":")
                  (Some error) w)
        end in
      let '(vs, this, w) := getBatchWeatherData_settle rest this w in
      (Ok v :: vs, this, w)
  end.

(** [return await Promise.all(promises)]. *)
Definition getBatchWeatherData (this : Adapter Json) (locations : list Location)
    (w : World) : Result (list (option Snapshot)) * Adapter Json * World :=
  let '(pps, w) := getBatchWeatherData_begin this locations w in
  let '(promises, this, w) := getBatchWeatherData_settle pps this w in
  (promise_all promises, this, w).

End Aggregator.

Arguments Snapshot Json Canon : clear implicits.

(** *** Geocoding *)

Section Geocoding.
Context {Json : Type}.

(** [searchLocation(query, limit = 5)] up to its [await]; [limit] is
    [None] when the argument is left out. *)
Definition searchLocation_begin (this : Adapter Json) (query : string)
    (limit : option Z) (w : World) : Pending Json * World :=
  let limit := default 5 limit in
  let url := baseUrl this +:+ "/geo/1.0/direct?" +:+
             "q=" +:+ Js.encodeURIComponent query +:+ "&" +:+
             "limit=" +:+ pretty limit +:+ "&" +:+
             "appid=" +:+ apiKey this in
  let cacheKey := "search_" +:+ query in
  _fetchWithCache_begin this url cacheKey w.

(** [reverseGeocode(lat, lon, limit = 1)] up to its [await]. *)
Definition reverseGeocode_begin (this : Adapter Json) (lat lon : Coord)
    (limit : option Z) (w : World) : Pending Json * World :=
  let limit := default 1 limit in
  let url := baseUrl this +:+ "/geo/1.0/reverse?" +:+
             "lat=" +:+ lat +:+ "&lon=" +:+ lon +:+ "&" +:+
             "limit=" +:+ pretty limit +:+ "&" +:+
             "appid=" +:+ apiKey this in
  let cacheKey := "reverse_" +:+ lat +:+ "_" +:+ lon in
  _fetchWithCache_begin this url cacheKey w.

Variable net : Network Json.

Definition searchLocation (this : Adapter Json) (query : string) (limit : option Z)
    (w : World) : Result Json * Adapter Json * World :=
  let '(p, w) := searchLocation_begin this query limit w in
  _fetchWithCache_resume net p this w.

Definition reverseGeocode (this : Adapter Json) (lat lon : Coord) (limit : option Z)
    (w : World) : Result Json * Adapter Json * World :=
  let '(p, w) := reverseGeocode_begin this lat lon limit w in
  _fetchWithCache_resume net p this w.

End Geocoding.

End OpenWeatherMapAdapter.

(** ** class OpenWeatherMapAdapter: the pure helper methods *)

Module Normalization.

Definition directions : list string :=
  ["N"; "NNE"; "NE"; "ENE"; "E"; "ESE"; "SE"; "SSE";
   "S"; "SSW"; "SW"; "WSW"; "W"; "WNW"; "NW"; "NNW"].

(** [_degToCardinal(deg)] for a bearing in whole degrees; [deg] is [None]
    for [null] or [undefined], and the result is [None] for [undefined]:
    [directions[index]] with a negative [index]. *)
Definition _degToCardinal (deg : option Z) : option string :=
  match deg with
  | None => Some "CALM"
  | Some d =>
      let index := Z.rem (Js.round (inject_Z d / (45 # 2))) 16 in
      if index <? 0 then None else directions !! Z.to_nat index
  end.

(** [_getUVDescription(uvi)]; [uvi] is [None] for [undefined], which
    compares as [NaN]: every [<] is false. *)
Definition _getUVDescription (uvi : option Q) : string :=
  let below bound := match uvi with Some u => Js.lt u bound | None => false end in
  if below (3 # 1)%Q then "Low"
  else if below (6 # 1)%Q then "Moderate"
  else if below (8 # 1)%Q then "High"
  else if below (11 # 1)%Q then "Very High"
  else "Extreme".

(** [_getAQICategory(aqi)] for an integer index. *)
Definition _getAQICategory (aqi : Z) : string :=
  let categories := ["Good"; "Fair"; "Moderate"; "Poor"; "Very Poor"] in
  let found := if aqi - 1 <? 0 then None else categories !! Z.to_nat (aqi - 1) in
  match found with
  | Some c => if Js.truthy_string c then c else "Unknown"
  | None => "Unknown"
  end.

(** The air-pollution payload: [list[i].main.aqi] and
    [list[i].components]. *)
Record Components := {
  co : Q; no : Q; no2 : Q; o3 : Q; so2 : Q; pm2_5 : Q; pm10 : Q; nh3 : Q
}.

Record Reading := { main_aqi : Z; components : Components }.

Record AirPollution := { list_ : option (list Reading) }.

Record Pollutants := {
  p_pm25 : Q; p_pm10 : Q; p_o3 : Q; p_no2 : Q; p_so2 : Q; p_co : Q
}.

Record AirQuality := {
  airQualityCategoryIndex : Z;
  airQualityCategory : string;
  airQualityIndex : Z;
  primaryPollutant : string;
  pollutants : Pollutants
}.

(** [transformAirQuality(owmAirQuality)]; [None] is [null]. *)
Definition transformAirQuality (owmAirQuality : option AirPollution)
    : option AirQuality :=
  match owmAirQuality with
  | None => None
  | Some payload =>
      match list_ payload with
      | None | Some [] => None
      | Some (aqi :: _) =>
          let components := components aqi in
          let primaryPollutant := "PM2.5" in
          let maxValue := pm2_5 components in
          let '(primaryPollutant, maxValue) :=
            if Js.gt (pm10 components) maxValue
            then ("PM10", pm10 components)
            else (primaryPollutant, maxValue) in
          let primaryPollutant :=
            if Js.gt (o3 components) maxValue then "Ozone" else primaryPollutant in
          let primaryPollutant :=
            if Js.gt (no2 components) maxValue then "NO2" else primaryPollutant in
          Some {| airQualityCategoryIndex := main_aqi aqi;
                  airQualityCategory := _getAQICategory (main_aqi aqi);
                  airQualityIndex := main_aqi aqi;
                  primaryPollutant := primaryPollutant;
                  pollutants := {| p_pm25 := pm2_5 components;
                                   p_pm10 := pm10 components;
                                   p_o3 := o3 components;
                                   p_no2 := no2 components;
                                   p_so2 := so2 components;
                                   p_co := co components |} |}
      end
  end.

(** The callback [word => word.charAt(0).toUpperCase() + word.slice(1)]. *)
Definition capitalizeWord (word : string) : string :=
  match word with
  | EmptyString => EmptyString
  | String c rest => String (Js.upper_ascii c) rest
  end.

(** [_capitalizeWeatherPhrase(phrase)]. *)
Definition _capitalizeWeatherPhrase (phrase : string) : string :=
  Js.join " " (map capitalizeWord (Js.split " " phrase)).

(** [_getAlertTypeCode(event)]. *)
Definition _getAlertTypeCode (event : string) : string :=
  let lowerEvent := Js.toLowerCase event in
  if Js.includes lowerEvent "tornado" then "TOR"
  else if Js.includes lowerEvent "severe thunderstorm" then "SVR"
  else if Js.includes lowerEvent "flood" then "FLO"
  else if Js.includes lowerEvent "winter" then "WIN"
  else "WEA".

End Normalization.


(** ** class RainViewerAdapter *)

Module RainViewerAdapter.
Import Async.

(** The manifest served at [apiUrl]: frame descriptors by layer.  A
    missing property is [None]. *)
Record Frame := { time : Z; path : string }.
Record Radar := { past : option (list Frame); nowcast : option (list Frame) }.
Record Satellite := { infrared : option (list Frame) }.
Record Maps := { radar : option Radar; satellite : option Satellite }.

(** [this.cache = { maps, timestamp }] and the other fields. *)
Record Adapter := {
  corsProxyUrl : string;
  apiUrl : string;
  tileBaseUrl : string;
  cache_maps : option Maps;
  cache_timestamp : Z;
  cacheTTL : Z
}.

(** [constructor(corsProxyUrl = 'http://localhost:8081/')]. *)
Definition new (proxy : option string) : Adapter :=
  {| corsProxyUrl := default "http://localhost:8081/" proxy;
     apiUrl := "https://api.rainviewer.com/public/weather-maps.json";
     tileBaseUrl := "https://tilecache.rainviewer.com";
     cache_maps := None;
     cache_timestamp := 0;
     cacheTTL := 5 * 60 * 1000 |}.

Definition with_cache (m : option Maps) (t : Z) (this : Adapter) : Adapter :=
  {| corsProxyUrl := corsProxyUrl this; apiUrl := apiUrl this;
     tileBaseUrl := tileBaseUrl this;
     cache_maps := m; cache_timestamp := t; cacheTTL := cacheTTL this |}.

Definition clearCache (this : Adapter) : Adapter := with_cache None 0 this.

(** The object returned by [getRadarTimestamps]; [rt_current] is [None]
    for [null]. *)
Record RadarTimestamps := {
  rt_past : list Z;
  rt_nowcast : list Z;
  rt_all : list Z;
  rt_current : option Z
}.

(** The synchronous part of [getRadarTimestamps], after
    [const maps = await this.getAvailableMaps()]. *)
Definition radarTimestamps (maps : Maps) : RadarTimestamps :=
  (* maps.radar?.past || [] *)
  let past := default [] (r ← radar maps; past r) in
  let nowcast := default [] (r ← radar maps; nowcast r) in
  let pastTimestamps := map time past in
  let nowcastTimestamps := map time nowcast in
  {| rt_past := pastTimestamps;
     rt_nowcast := nowcastTimestamps;
     rt_all := pastTimestamps ++ nowcastTimestamps;
     rt_current :=
       if (0 <? length pastTimestamps)%nat
       then pastTimestamps !! (length pastTimestamps - 1)%nat
       else None |}.

(** An element of [series], and the object returned by
    [getRadarSeries]. *)
Record SeriesFrame := { ts : Z; isPast : bool }.

Record Metadata := { source : string; updateInterval : Z }.

Record RadarSeries := {
  series : list SeriesFrame;
  current : option Z;
  metadata : Metadata
}.

(** The callback [ts => ({ ts: ts, isPast: timestamps.past.includes(ts) })]
    of [getRadarSeries]. *)
Definition seriesFrame (pastTimestamps : list Z) (t : Z) : SeriesFrame :=
  {| ts := t; isPast := bool_decide (t ∈ pastTimestamps) |}.

(** The synchronous part of [getRadarSeries], after
    [const timestamps = await this.getRadarTimestamps()]. *)
Definition radarSeries (timestamps : RadarTimestamps) : RadarSeries :=
  {| series := map (seriesFrame (rt_past timestamps)) (rt_all timestamps);
     current := rt_current timestamps;
     metadata := {| source := "RainViewer"; updateInterval := 300000 |} |}.

(** [getColorSchemes()]. *)
Definition getColorSchemes : gmap Z string :=
  list_to_map
    [ (0, "Original");
      (1, "Universal Blue");
      (2, "TITAN");
      (3, "The Weather Channel");
      (4, "Meteored");
      (5, "NEXRAD Level III");
      (6, "RAINBOW @ SELEX-SI");
      (7, "Dark Sky");
      (8, "Black & White") ].

(** The [options] argument of the tile functions; [{}] is
    [no_options]. *)
Record TileOptions := {
  size : Js.Value;
  color : Js.Value;
  smooth : Js.Value;
  snow : Js.Value
}.

Definition no_options : TileOptions :=
  {| size := Js.Undefined; color := Js.Undefined;
     smooth := Js.Undefined; snow := Js.Undefined |}.

(** [getRadarTileUrl(timestamp, z, x, y, options = {})]. *)
Definition getRadarTileUrl (this : Adapter) (timestamp z x y : Z)
    (options : TileOptions) : string :=
  let size := Js.or_else (size options) (Js.Number 256) in
  let color := Js.or_else (color options) (Js.Number 1) in
  let smooth := Js.or_else (smooth options) (Js.Number 1) in
  let snow := Js.or_else (snow options) (Js.Number 1) in
  tileBaseUrl this +:+ "/v2/radar/" +:+ pretty timestamp +:+ "/" +:+ pretty z +:+ "/" +:+
  pretty x +:+ "/" +:+ pretty y +:+ "/" +:+ Js.display size +:+ "/" +:+
  Js.display color +:+ "_" +:+ Js.display smooth +:+ ".png".

Section Client.
Variable net : Network Maps.

(** [getAvailableMaps()]. *)
Definition getAvailableMaps (this : Adapter) (w : World)
    : Result Maps * Adapter * World :=
  let fetching :=
    let address := corsProxyUrl this +:+ apiUrl this in
    let reply := net (length (requests w)) address in
    let w := advance (elapsed reply) (issue address w) in
    match parsed (response reply) with
    | Ok payload => (Ok payload, with_cache (Some payload) (clock w) this, w)
    | Throw error =>
        let w := emit Error "Error fetching RainViewer maps:" (Some error) w in
        match cache_maps this with
        | Some m =>
            (Ok m, this,
             emit Warn "Using cached RainViewer data due to fetch error" None w)
        | None => (Throw error, this, w)
        end
    end in
  match cache_maps this with
  | Some m => if clock w - cache_timestamp this <? cacheTTL this
              then (Ok m, this, w)
              else fetching
  | None => fetching
  end.

(** [getRadarTimestamps()]. *)
Definition getRadarTimestamps (this : Adapter) (w : World)
    : Result RadarTimestamps * Adapter * World :=
  let '(r, this, w) := getAvailableMaps this w in
  ((maps ← r; Ok (radarTimestamps maps)), this, w).

(** [getRadarSeries()]. *)
Definition getRadarSeries (this : Adapter) (w : World)
    : Result RadarSeries * Adapter * World :=
  let '(r, this, w) := getRadarTimestamps this w in
  ((timestamps ← r; Ok (radarSeries timestamps)), this, w).

End Client.

(** The object returned by [getSatelliteTimestamps]. *)
Record SatelliteTimestamps := {
  st_infrared : list Z;
  st_current : option Z
}.

(** The synchronous part of [getSatelliteTimestamps]. *)
Definition satelliteTimestamps (maps : Maps) : SatelliteTimestamps :=
  (* maps.satellite?.infrared || [] *)
  let infrared := default [] (s ← satellite maps; infrared s) in
  {| st_infrared := map time infrared;
     st_current :=
       if (0 <? length infrared)%nat
       then time <$> infrared !! (length infrared - 1)%nat
       else None |}.

(** The [options] of the layer constructors: the style options, and the
    numbers [opacity] and [zIndex] when given. *)
Record LayerOptions := {
  style : TileOptions;
  opacityOption : option Q;
  zIndexOption : Js.Value
}.

(** The [options] property of a tile layer, and the layer. *)
Record LayerSettings := {
  tileSize : Js.Value;
  opacity : Q;
  zIndex : Js.Value;
  maxZoom : Z
}.

Record TileLayer := { url : string; settings : LayerSettings }.

(** [createRadarTileLayer(timestamp, options = {})]. *)
Definition createRadarTileLayer (this : Adapter) (timestamp : Z)
    (options : LayerOptions) : TileLayer :=
  let size := Js.or_else (size (style options)) (Js.Number 256) in
  let color := Js.or_else (color (style options)) (Js.Number 1) in
  let smooth := Js.or_else (smooth (style options)) (Js.Number 1) in
  let tileUrl :=
    tileBaseUrl this +:+ "/v2/radar/" +:+ pretty timestamp +:+ "/{z}/{x}/{y}/" +:+
    Js.display size +:+ "/" +:+ Js.display color +:+ "_" +:+ Js.display smooth +:+
    ".png" in
  {| url := tileUrl;
     settings :=
       {| tileSize := size;
          (* options.opacity || 0.6 *)
          opacity := match opacityOption options with
                     | Some q => if Qeq_bool q 0 then (6 # 10)%Q else q
                     | None => (6 # 10)%Q
                     end;
          zIndex := Js.or_else (zIndexOption options) (Js.Number 200);
          maxZoom := 12 |} |}.

Section Imagery.
Variable net : Network Maps.

(** [getSatelliteTimestamps()]. *)
Definition getSatelliteTimestamps (this : Adapter) (w : World)
    : Result SatelliteTimestamps * Adapter * World :=
  let '(r, this, w) := getAvailableMaps net this w in
  ((maps ← r; Ok (satelliteTimestamps maps)), this, w).

(** [getRadarAnimationFrames(options = {})]. *)
Definition getRadarAnimationFrames (this : Adapter) (options : LayerOptions)
    (w : World) : Result (list TileLayer) * Adapter * World :=
  let '(r, this', w) := getRadarTimestamps net this w in
  ((timestamps ← r;
    let frames := rt_all timestamps in
    Ok (map (fun t => createRadarTileLayer this' t options) frames)),
   this', w).

(** [isRadarAvailable(lat, lon)]: the arguments are not used.  Reading
    [length] of a missing list throws inside the [try], and any throw
    gives [false]. *)
Definition isRadarAvailable (this : Adapter) (w : World)
    : Js.Value * Adapter * World :=
  let '(r, this, w) := getAvailableMaps net this w in
  let attempt : Result Js.Value :=
    maps ← r;
    match radar maps with
    | None => Ok Js.Undefined
    | Some rd =>
        match past rd with
        | None => Throw (TypeError "Cannot read properties of undefined (reading 'length')")
        | Some p =>
            if (0 <? length p)%nat then Ok (Js.Boolean true)
            else match nowcast rd with
                 | None => Throw (TypeError "Cannot read properties of undefined (reading 'length')")
                 | Some n => Ok (Js.Boolean (0 <? length n)%nat)
                 end
        end
    end in
  match attempt with
  | Ok v => (v, this, w)
  | Throw error =>
      (Js.Boolean false, this,
       emit Error "Error checking radar availability:" (Some error) w)
  end.

End Imagery.

End RainViewerAdapter.

(** ** api-config.js *)

Module ApiConfig.
Import Async.

Record Features := {
  pollen : bool;
  healthIndices : bool;
  satellite : bool;
  radar : bool
}.

Record CacheSettings := {
  ttlMinutes : Z;
  radarUpdateInterval : Z;
  weatherRefreshInterval : Z
}.

Record CorsProxy := { enabled : bool; proxyUrl : string }.

(** The global [apiConfig]. *)
Record Config := {
  openWeatherMapKey : string;
  mapboxKey : string;
  ambeeKey : string;
  features : Features;
  cache : CacheSettings;
  corsProxy : CorsProxy
}.

Section Globals.
Context {Json : Type}.

(** The globals [apiConfig], [weatherAPI] and [radarAPI]; [None] is
    [null]. *)
Record Globals := {
  apiConfig : Config;
  weatherAPI : option (OpenWeatherMapAdapter.Adapter Json);
  radarAPI : option RainViewerAdapter.Adapter
}.

(** [initializeAPIs()]. *)
Definition initializeAPIs (g : Globals) (w : World) : bool * Globals * World :=
  if negb (Js.truthy_string (openWeatherMapKey (apiConfig g))) then
    (false, g,
     emit Warn "Please set api_key in config.js or OPENWEATHER_API_KEY environment variable." None
       (emit Warn "OpenWeatherMap API key not configured. Weather data will not be available." None w))
  else
    let weather :=
      OpenWeatherMapAdapter.setCacheTTL (ttlMinutes (cache (apiConfig g)) * 60 * 1000)
        (OpenWeatherMapAdapter.new (openWeatherMapKey (apiConfig g))
                                   (Some (proxyUrl (corsProxy (apiConfig g))))) in
    let w := emit Log "✓ OpenWeatherMap adapter initialized" None w in
    if radar (features (apiConfig g)) || satellite (features (apiConfig g)) then
      (true,
       {| apiConfig := apiConfig g;
          weatherAPI := Some weather;
          radarAPI := Some (RainViewerAdapter.new (Some (proxyUrl (corsProxy (apiConfig g))))) |},
       emit Log "✓ RainViewer adapter initialized" None w)
    else
      (true,
       {| apiConfig := apiConfig g; weatherAPI := Some weather; radarAPI := radarAPI g |},
       w).

(** [areAPIsReady()]. *)
Definition areAPIsReady (g : Globals) : bool :=
  bool_decide (is_Some (weatherAPI g)) &&
  (negb (radar (features (apiConfig g))) || bool_decide (is_Some (radarAPI g))).

End Globals.

Arguments Globals Json : clear implicits.

End ApiConfig.

(** ** The vocabulary of the specification *)

Module Spec.
Import Async.

(** [needle] occurs in [hay]. *)
Definition contains (needle hay : string) : Prop :=
  exists pre post : string, hay = pre +:+ needle +:+ post.

(** A tag mentions a word when the word occurs in it, whatever the case
    of the tag's letters. *)
Definition mentions (word tag : string) : Prop :=
  contains word (Js.toLowerCase tag).

(** Alert severity as the adapter derives it: an absent tag list is mid
    tier; otherwise the first matching rule wins. *)
Inductive severity_rule : option (list string) -> Z -> Prop :=
| severity_absent :
    severity_rule None 3
| severity_extreme ts :
    Exists (mentions "extreme") ts -> severity_rule (Some ts) 4
| severity_severe ts :
    ~ Exists (mentions "extreme") ts -> Exists (mentions "severe") ts ->
    severity_rule (Some ts) 3
| severity_other ts :
    ~ Exists (mentions "extreme") ts -> ~ Exists (mentions "severe") ts ->
    severity_rule (Some ts) 2.

(** Alert severity as the specification words it: an absent tag list
    counts as a list without matching tag. *)
Inductive severity_rule_lowest_default : option (list string) -> Z -> Prop :=
| lowest_extreme tags :
    Exists (mentions "extreme") (default [] tags) ->
    severity_rule_lowest_default tags 4
| lowest_severe tags :
    ~ Exists (mentions "extreme") (default [] tags) ->
    Exists (mentions "severe") (default [] tags) ->
    severity_rule_lowest_default tags 3
| lowest_other tags :
    ~ Exists (mentions "extreme") (default [] tags) ->
    ~ Exists (mentions "severe") (default [] tags) ->
    severity_rule_lowest_default tags 2.

(** The ordering invariant of an imagery timeline: no past frame comes
    after a frame that is not past, and each of the two groups ascends by
    timestamp. *)
Definition past_before (a b : RainViewerAdapter.SeriesFrame) : Prop :=
  RainViewerAdapter.isPast a = false -> RainViewerAdapter.isPast b = false.

Definition timeline_ordered (l : list RainViewerAdapter.SeriesFrame) : Prop :=
  StronglySorted past_before l /\
  Sorted Z.le (RainViewerAdapter.ts <$> filter (fun f => RainViewerAdapter.isPast f = true) l) /\
  Sorted Z.le (RainViewerAdapter.ts <$> filter (fun f => RainViewerAdapter.isPast f = false) l).

(** The frame lists of a manifest, a missing layer or list being empty. *)
Definition past_times (maps : RainViewerAdapter.Maps) : list Z :=
  RainViewerAdapter.time <$>
    default [] (r ← RainViewerAdapter.radar maps; RainViewerAdapter.past r).

Definition nowcast_times (maps : RainViewerAdapter.Maps) : list Z :=
  RainViewerAdapter.time <$>
    default [] (r ← RainViewerAdapter.radar maps; RainViewerAdapter.nowcast r).

(** The path of a radar tile for given style values. *)
Definition radar_tile (base : string) (timestamp z x y : Z)
    (size color smooth : Js.Value) : string :=
  base +:+ "/v2/radar/" +:+ pretty timestamp +:+ "/" +:+ pretty z +:+ "/" +:+ pretty x +:+
  "/" +:+ pretty y +:+ "/" +:+ Js.display size +:+ "/" +:+ Js.display color +:+ "_" +:+
  Js.display smooth +:+ ".png".

(** Validation of a style option against an enumeration, as the
    specification words it: a member is kept, anything else is replaced
    by the default. *)
Definition validated (allowed : list Z) (fallback : Z) (v : Js.Value) : Js.Value :=
  match v with
  | Js.Number n => if bool_decide (n ∈ allowed) then v else Js.Number fallback
  | _ => Js.Number fallback
  end.

(** The radar tile address with every style option validated; the
    enumeration of tile sizes is a parameter, the colour schemes are the
    keys 0-8 of [getColorSchemes] and the smoothing flag is 0 or 1. *)
Definition validated_tile (sizes : list Z) (this : RainViewerAdapter.Adapter)
    (timestamp z x y : Z) (options : RainViewerAdapter.TileOptions) : string :=
  radar_tile (RainViewerAdapter.tileBaseUrl this) timestamp z x y
    (validated sizes 256 (RainViewerAdapter.size options))
    (validated (map_to_list RainViewerAdapter.getColorSchemes).*1 1
               (RainViewerAdapter.color options))
    (validated [0; 1] 1 (RainViewerAdapter.smooth options)).

(** What the adapter does instead: an absent option takes the default and
    a supplied one is kept. *)
Definition supplied_or (fallback : Z) (v : Js.Value) : Js.Value :=
  match v with
  | Js.Undefined => Js.Number fallback
  | _ => v
  end.

Definition absent_or_truthy (v : Js.Value) : Prop :=
  v = Js.Undefined \/ Js.truthy v = true.

(** The address that [_fetchWithCache] hands to [fetch], and the reply
    that the network holds for a request issued in the world [w]. *)
Definition proxied {Json : Type} (this : OpenWeatherMapAdapter.Adapter Json)
    (url : string) : string :=
  OpenWeatherMapAdapter.corsProxyUrl this +:+ url.

Definition reply_to {Json : Type} (net : Network Json)
    (this : OpenWeatherMapAdapter.Adapter Json) (url : string) (w : World) : Reply Json :=
  net (length (requests w)) (proxied this url).

(** The cache holds no fresh entry for the key: none at all, or one whose
    age has reached the TTL. *)
Definition no_fresh_entry {Json : Type} (this : OpenWeatherMapAdapter.Adapter Json)
    (cacheKey : string) (w : World) : Prop :=
  forall c, OpenWeatherMapAdapter.cache this !! cacheKey = Some c ->
            OpenWeatherMapAdapter.cacheTTL this <= clock w - OpenWeatherMapAdapter.timestamp c.

(** [null] for a rejected promise, as the [.catch] handlers of the
    aggregator have it. *)
Definition or_null {A : Type} (r : Result A) : option A :=
  match r with
  | Ok a => Some a
  | Throw _ => None
  end.

(** What a suspended [_fetchWithCache] will settle to: the reply decides,
    together with the entry the call read before it was suspended. *)
Definition settles {Json : Type} (net : Network Json)
    (p : OpenWeatherMapAdapter.Pending Json) : Result Json :=
  match p with
  | OpenWeatherMapAdapter.Settled value => Ok value
  | OpenWeatherMapAdapter.Awaiting rank address _ cached =>
      match parsed (response (net rank address)), cached with
      | Ok payload, _ => Ok payload
      | Throw _, Some c => Ok (OpenWeatherMapAdapter.data c)
      | Throw e, None => Throw e
      end
  end.

(** What the two suspended calls of [getCompleteWeatherData] amount to:
    the snapshot of the conditions payload, with the air-quality payload
    or [null], or the rejection of the conditions call. *)
Definition assembled {Json Canon : Type}
    {normalisation : OpenWeatherMapAdapter.Normalisation Json Canon}
    (net : Network Json)
    (pp : OpenWeatherMapAdapter.Pending Json * OpenWeatherMapAdapter.Pending Json)
    : Result (OpenWeatherMapAdapter.Snapshot Json Canon) :=
  match settles net pp.1 with
  | Ok oneCallData => OpenWeatherMapAdapter.snapshot oneCallData (or_null (settles net pp.2))
  | Throw e => Throw e
  end.

(** The first component of what an [async] call yields. *)
Definition outcome {A S W : Type} (x : Result A * S * W) : Result A := x.1.1.

Definition world_after {A S : Type} (x : A * S * World) : World := x.2.

End Spec.

(** ** Concrete manifests, networks and worlds *)

Module Fixtures.
Import Async.

Definition midnight : World := {| clock := 0; console := []; requests := [] |}.

(** A manifest with the given past and nowcast timestamps. *)
Definition manifest (p n : list Z) : RainViewerAdapter.Maps :=
  let frame t := {| RainViewerAdapter.time := t; RainViewerAdapter.path := "" |} in
  {| RainViewerAdapter.radar :=
       Some {| RainViewerAdapter.past := Some (frame <$> p);
               RainViewerAdapter.nowcast := Some (frame <$> n) |};
     RainViewerAdapter.satellite := None |}.

(** A manifest with the given infrared timestamps and no radar layer. *)
Definition satellite_manifest (l : list Z) : RainViewerAdapter.Maps :=
  let frame t := {| RainViewerAdapter.time := t; RainViewerAdapter.path := "" |} in
  {| RainViewerAdapter.radar := None;
     RainViewerAdapter.satellite :=
       Some {| RainViewerAdapter.infrared := Some (frame <$> l) |} |}.

(** A network that serves the payload [m] at once, whatever is asked. *)
Definition serving {Json : Type} (m : Json) : Network Json :=
  fun _ _ => {| elapsed := 0; response := Responded 200 (Some m) |}.

(** A network on which every request is answered by [r] after [dt]
    milliseconds. *)
Definition answering {Json : Type} (dt : Z) (r : Response Json) : Network Json :=
  fun _ _ => {| elapsed := dt; response := r |}.

(** Style options that only choose the colour scheme. *)
Definition only_color (c : Js.Value) : RainViewerAdapter.TileOptions :=
  {| RainViewerAdapter.size := Js.Undefined; RainViewerAdapter.color := c;
     RainViewerAdapter.smooth := Js.Undefined; RainViewerAdapter.snow := Js.Undefined |}.

(** A weather adapter whose cache holds [old] under [key], stored at time
    [0]; payloads are texts. *)
Definition holding (key old : string) : OpenWeatherMapAdapter.Adapter string :=
  OpenWeatherMapAdapter.with_cache
    {[ key := {| OpenWeatherMapAdapter.data := old; OpenWeatherMapAdapter.timestamp := 0 |} ]}
    (OpenWeatherMapAdapter.new "KEY" None).

Definition at_time (t : Z) : World := {| clock := t; console := []; requests := [] |}.

(** A normalisation over texts that keeps track of what it was applied
    to, and never throws. *)
Definition tracing : OpenWeatherMapAdapter.Normalisation string string :=
  {| OpenWeatherMapAdapter.truthy := Js.truthy_string;
     OpenWeatherMapAdapter.field := fun name x => Ok (name +:+ "@" +:+ x);
     OpenWeatherMapAdapter.slice := fun _ _ x => Ok x;
     OpenWeatherMapAdapter.transformCurrentConditions := fun x _ => Ok x;
     OpenWeatherMapAdapter.transformHourlyForecast := fun x _ => Ok x;
     OpenWeatherMapAdapter.transformDailyForecast := fun x _ => Ok x;
     OpenWeatherMapAdapter.transformAlerts := fun x => Ok x;
     OpenWeatherMapAdapter.transformAirQuality := fun x => Ok (Some x) |}.

(** A network that rejects every request whose address mentions [mark]
    and answers the others with the text [body]. *)
Definition failing_on (mark body : string) : Network string :=
  fun _ address =>
    {| elapsed := 1;
       response := if Js.includes address mark
                   then Rejected "Failed to fetch"
                   else Responded 200 (Some body) |}.

Definition place (lat lon : string) : OpenWeatherMapAdapter.Location :=
  {| OpenWeatherMapAdapter.loc_lat := lat; OpenWeatherMapAdapter.loc_lon := lon |}.

End Fixtures.

(** ** Further vocabulary *)

Module Laws.
Import Async.

(** The adapter that an [async] call leaves behind. *)
Definition adapter_after {A S W : Type} (x : A * S * W) : S := x.1.2.

(** A coordinate text holds no underscore, as the text of a number never
    does. *)
Definition underscore_free (s : string) : Prop := Js.includes s "_" = false.

(** The rank of a UV description, from the mildest on. *)
Definition uv_rank (description : string) : nat :=
  if String.eqb description "Low" then 0
  else if String.eqb description "Moderate" then 1
  else if String.eqb description "High" then 2
  else if String.eqb description "Very High" then 3
  else 4.

(** The concentration that a pollutant name of [transformAirQuality]
    stands for. *)
Definition named_value (c : Normalization.Components) (name : string) : option Q :=
  if String.eqb name "PM2.5" then Some (Normalization.pm2_5 c)
  else if String.eqb name "PM10" then Some (Normalization.pm10 c)
  else if String.eqb name "Ozone" then Some (Normalization.o3 c)
  else if String.eqb name "NO2" then Some (Normalization.no2 c)
  else None.

(** The character [sep] does not occur in [s]. *)
Fixpoint char_free (sep : ascii) (s : string) : bool :=
  match s with
  | EmptyString => true
  | String c s' => negb (Ascii.eqb c sep) && char_free sep s'
  end.

(** The two ends of a radar tile address, around the tile coordinates:
    the part up to the timestamp, and the style. *)
Definition tile_head (this : RainViewerAdapter.Adapter) (timestamp : Z) : string :=
  RainViewerAdapter.tileBaseUrl this +:+ "/v2/radar/" +:+ pretty timestamp +:+ "/".

Definition tile_tail (options : RainViewerAdapter.TileOptions) : string :=
  "/" +:+ Js.display (Js.or_else (RainViewerAdapter.size options) (Js.Number 256)) +:+
  "/" +:+ Js.display (Js.or_else (RainViewerAdapter.color options) (Js.Number 1)) +:+
  "_" +:+ Js.display (Js.or_else (RainViewerAdapter.smooth options) (Js.Number 1)) +:+
  ".png".

(** The radar adapter's cache is not fresh: empty, or as old as the
    TTL. *)
Definition manifest_not_fresh (this : RainViewerAdapter.Adapter) (w : World) : Prop :=
  RainViewerAdapter.cache_maps this = None \/
  RainViewerAdapter.cacheTTL this <= clock w - RainViewerAdapter.cache_timestamp this.

(** The address of the manifest, and the reply that the network holds for
    a request issued in the world [w]. *)
Definition manifest_address (this : RainViewerAdapter.Adapter) : string :=
  RainViewerAdapter.corsProxyUrl this +:+ RainViewerAdapter.apiUrl this.

Definition manifest_reply (net : Network RainViewerAdapter.Maps)
    (this : RainViewerAdapter.Adapter) (w : World) : Reply RainViewerAdapter.Maps :=
  net (length (requests w)) (manifest_address this).

(** The type code of an alert: the first of the four words that the event
    mentions decides. *)
Inductive alert_type_rule (event : string) : string -> Prop :=
| type_tornado :
    Spec.mentions "tornado" event -> alert_type_rule event "TOR"
| type_thunderstorm :
    ~ Spec.mentions "tornado" event -> Spec.mentions "severe thunderstorm" event ->
    alert_type_rule event "SVR"
| type_flood :
    ~ Spec.mentions "tornado" event -> ~ Spec.mentions "severe thunderstorm" event ->
    Spec.mentions "flood" event -> alert_type_rule event "FLO"
| type_winter :
    ~ Spec.mentions "tornado" event -> ~ Spec.mentions "severe thunderstorm" event ->
    ~ Spec.mentions "flood" event -> Spec.mentions "winter" event ->
    alert_type_rule event "WIN"
| type_other :
    ~ Spec.mentions "tornado" event -> ~ Spec.mentions "severe thunderstorm" event ->
    ~ Spec.mentions "flood" event -> ~ Spec.mentions "winter" event ->
    alert_type_rule event "WEA".

End Laws.

(** * Properties *)

(** ** Condition identifiers to icon codes *)

Module IconMapping.
Import OpenWeatherMapAdapter.

Example icon_day_clear : mapOWMIconToWeathercom 800 (Some "01d") = 32.
Proof. vm_compute. reflexivity. Qed.

Example icon_night_clear : mapOWMIconToWeathercom 800 (Some "01n") = 31.
Proof. vm_compute. reflexivity. Qed.

Example icon_out_of_range : mapOWMIconToWeathercom 999 None = 44.
Proof. vm_compute. reflexivity. Qed.

Example icon_negative : mapOWMIconToWeathercom (-5) (Some "") = 44.
Proof. vm_compute. reflexivity. Qed.

(** Every entry of the table is [0] or one of the icon codes. *)
Lemma iconMap_values (n : bool) :
  map_Forall (fun _ v => v = 0 \/ v ∈ IconCodes) (iconMap n).
Proof.
  apply map_Forall_to_list.
  destruct n; vm_compute;
    repeat (constructor;
            [ first [ left; reflexivity
                    | right; repeat first [ apply list_elem_of_here
                                          | apply list_elem_of_further ] ] | ]);
    constructor.
Qed.

Lemma sentinel_is_icon_code : 44 ∈ IconCodes.
Proof. unfold IconCodes. apply list_elem_of_In. simpl. tauto. Qed.

(** C4. For every numeric condition identifier and every icon suffix
    (absent, empty, day or night), [mapOWMIconToWeathercom] returns one of
    the finitely many icon codes, and an identifier that is not a key of
    the lookup table resolves to the sentinel 44. *)
Theorem mapOWMIconToWeathercom_total (weatherId : Z) (iconCode : option string) :
  mapOWMIconToWeathercom weatherId iconCode ∈ IconCodes /\
  match iconMap (isNight iconCode) !! weatherId with
  | None => mapOWMIconToWeathercom weatherId iconCode = 44
  | Some v => mapOWMIconToWeathercom weatherId iconCode = (if v =? 0 then 44 else v)
  end.
Proof.
  unfold mapOWMIconToWeathercom.
  destruct (iconMap (isNight iconCode) !! weatherId) as [v|] eqn:Hv.
  - pose proof (iconMap_values (isNight iconCode) weatherId v Hv) as Hcode.
    unfold Js.truthy_number.
    destruct (Z.eqb_spec v 0) as [-> | Hnz]; simpl.
    + split; [apply sentinel_is_icon_code | reflexivity].
    + split; [| reflexivity].
      destruct Hcode as [Hz | Hin]; [contradiction | exact Hin].
  - split; [apply sentinel_is_icon_code | reflexivity].
Qed.

(** C10. The table maps the identifier 781 (tornado) to the icon code 0,
    yet [mapOWMIconToWeathercom] returns the sentinel 44 for it, whatever
    the icon suffix: [iconMap[weatherId] || 44] takes the falsy 0 for a
    missing entry. *)
Theorem tornado_resolves_to_sentinel (iconCode : option string) :
  iconMap (isNight iconCode) !! 781 = Some 0 /\
  mapOWMIconToWeathercom 781 iconCode = 44.
Proof.
  unfold mapOWMIconToWeathercom.
  assert (H : iconMap (isNight iconCode) !! 781 = Some 0)
    by (destruct (isNight iconCode); vm_compute; reflexivity).
  rewrite H. split; reflexivity.
Qed.

End IconMapping.

(** ** Alert severity *)

Module AlertSeverity.
Import OpenWeatherMapAdapter Spec.

Lemma startsWith_prefix (needle hay : string) :
  Js.startsWith needle hay = true <-> exists post, hay = needle +:+ post.
Proof.
  revert hay. induction needle as [|a needle IH]; intros hay; simpl.
  - split; [intros _; now exists hay | reflexivity].
  - destruct hay as [|b hay].
    + split; [discriminate | intros [post H]; discriminate].
    + destruct (Ascii.eqb_spec a b) as [-> | Hab].
      * rewrite IH. split; intros [post H]; exists post.
        -- simpl. now rewrite H.
        -- simpl in H. now injection H.
      * split; [discriminate |].
        intros [post H]. simpl in H. injection H as Hb _. congruence.
Qed.

Lemma includes_contains (hay needle : string) :
  Js.includes hay needle = true <-> contains needle hay.
Proof.
  unfold contains. split.
  - induction hay as [|c hay IH]; simpl.
    + destruct (Js.startsWith needle "") eqn:Hs; [| discriminate].
      intros _. apply startsWith_prefix in Hs as [post Hs].
      now exists "", post.
    + destruct (Js.startsWith needle (String c hay)) eqn:Hs.
      * intros _. apply startsWith_prefix in Hs as [post Hs].
        now exists "", post.
      * intros H. destruct (IH H) as (pre & post & Heq).
        exists (String c pre), post. simpl. now rewrite Heq.
  - intros (pre & post & ->).
    induction pre as [|c pre IH].
    + assert (Hs : Js.startsWith needle ("" +:+ needle +:+ post) = true)
        by (apply startsWith_prefix; now exists post).
      destruct ("" +:+ needle +:+ post); simpl in *; now rewrite Hs.
    + change (String c pre +:+ needle +:+ post)
        with (String c (pre +:+ needle +:+ post)).
      simpl. rewrite IH. now destruct (Js.startsWith needle _).
Qed.

Lemma some_tag_mentions (word : string) (ts : list string) :
  existsb (fun t => Js.includes (Js.toLowerCase t) word) ts = true <->
  Exists (mentions word) ts.
Proof.
  unfold mentions. induction ts as [|t ts IH]; simpl.
  - split; [discriminate | intros H; inversion H].
  - rewrite orb_true_iff, IH, includes_contains, Exists_cons. reflexivity.
Qed.

Example tags_extreme_first :
  _getAlertSeverity (Some ["Severe weather"; "EXTREME temperature"]) = 4.
Proof. reflexivity. Qed.

Example tags_severe : _getAlertSeverity (Some ["Wind"; "severe storm"]) = 3.
Proof. reflexivity. Qed.

Example tags_no_match : _getAlertSeverity (Some ["Rain"; "Flood"]) = 2.
Proof. reflexivity. Qed.

Example tags_empty : _getAlertSeverity (Some []) = 2.
Proof. reflexivity. Qed.

(** C6, as amended. [_getAlertSeverity] returns 3 for an absent tag list;
    for a tag list it returns 4 when some tag mentions "extreme",
    otherwise 3 when some tag mentions "severe", otherwise 2. *)
Theorem _getAlertSeverity_rule (tags : option (list string)) :
  severity_rule tags (_getAlertSeverity tags).
Proof.
  destruct tags as [ts|]; simpl; [| constructor].
  destruct (existsb _ ts) eqn:He.
  - apply severity_extreme. now apply some_tag_mentions.
  - assert (Hne : ~ Exists (mentions "extreme") ts).
    { intros H. apply some_tag_mentions in H. congruence. }
    destruct (existsb (fun t => Js.includes (Js.toLowerCase t) "severe") ts) eqn:Hs.
    + apply severity_severe; [exact Hne | now apply some_tag_mentions].
    + apply severity_other; [exact Hne |].
      intros H. apply some_tag_mentions in H. congruence.
Qed.

(** C6, as stated, fails on the absent tag list: no tag matches, so the
    stated rule gives the lowest tier 2, while the adapter returns 3. *)
Lemma absent_tags_not_lowest :
  _getAlertSeverity None = 3 /\
  severity_rule_lowest_default None 2 /\
  ~ severity_rule_lowest_default None (_getAlertSeverity None).
Proof.
  split; [reflexivity |].
  assert (Hnone : forall w, ~ Exists (mentions w) (default [] (None : option (list string))))
    by (intros w H; inversion H).
  split; [apply lowest_other; apply Hnone |].
  simpl. intros H. inversion H as [tags Hx | tags _ Hs | tags _ _]; subst.
  eapply Hnone, Hs.
Qed.

End AlertSeverity.

(** ** Imagery timeline *)

Module Timeline.
Import Async RainViewerAdapter Spec Fixtures.

Lemma last_by_index {A : Type} (l : list A) :
  (if (0 <? length l)%nat then l !! (length l - 1)%nat else None) = last l.
Proof.
  rewrite last_lookup. destruct l as [|a l]; [reflexivity |].
  replace (length (a :: l) - 1)%nat with (pred (length (a :: l))) by (simpl; lia).
  reflexivity.
Qed.

Lemma radarTimestamps_merge (maps : Maps) :
  radarTimestamps maps =
    {| rt_past := past_times maps;
       rt_nowcast := nowcast_times maps;
       rt_all := past_times maps ++ nowcast_times maps;
       rt_current := last (past_times maps) |}.
Proof.
  unfold radarTimestamps, past_times, nowcast_times.
  f_equal. apply last_by_index.
Qed.

Lemma getRadarTimestamps_of_maps (net : Network Maps) (this this' : Adapter)
    (w w' : World) (maps : Maps) :
  getAvailableMaps net this w = (Ok maps, this', w') ->
  getRadarTimestamps net this w = (Ok (radarTimestamps maps), this', w').
Proof. intros H. unfold getRadarTimestamps. now rewrite H. Qed.

(** C9. Whenever the manifest is obtained, [getRadarTimestamps] returns
    the past timestamps followed by the nowcast timestamps, each list in
    the order of the manifest, and [current] is the last past timestamp,
    or [null] when there is no past frame. *)
Theorem getRadarTimestamps_merges (net : Network Maps) (this this' : Adapter)
    (w w' : World) (maps : Maps) :
  getAvailableMaps net this w = (Ok maps, this', w') ->
  getRadarTimestamps net this w =
    (Ok {| rt_past := past_times maps;
           rt_nowcast := nowcast_times maps;
           rt_all := past_times maps ++ nowcast_times maps;
           rt_current := last (past_times maps) |},
     this', w').
Proof.
  intros H. rewrite (getRadarTimestamps_of_maps net this this' w w' maps H).
  now rewrite radarTimestamps_merge.
Qed.

(** The manifest of the specification's example: past [100, 200] and
    forecast [300, 400]. *)
Lemma getRadarTimestamps_merges_witness :
  outcome (getRadarTimestamps (serving (manifest [100; 200] [300; 400]))
                              (new None) midnight) =
    Ok {| rt_past := [100; 200]; rt_nowcast := [300; 400];
          rt_all := [100; 200; 300; 400]; rt_current := Some 200 |}.
Proof.
  unfold outcome.
  erewrite getRadarTimestamps_merges by (vm_compute; reflexivity).
  reflexivity.
Defined.

Example no_past_frame :
  outcome (getRadarTimestamps (serving (manifest [] [300; 400])) (new None) midnight) =
    Ok {| rt_past := []; rt_nowcast := [300; 400];
          rt_all := [300; 400]; rt_current := None |}.
Proof. vm_compute. reflexivity. Qed.

Example no_radar_layer :
  radarTimestamps {| radar := None; satellite := None |} =
    {| rt_past := []; rt_nowcast := []; rt_all := []; rt_current := None |}.
Proof. reflexivity. Qed.

Lemma past_group (P l : list Z) :
  ts <$> filter (fun f => isPast f = true) (seriesFrame P <$> l) =
  filter (fun t => t ∈ P) l.
Proof.
  induction l as [|a l IH]; [reflexivity |].
  rewrite fmap_cons, !filter_cons.
  destruct (decide (a ∈ P)) as [Ha | Ha];
    destruct (decide (isPast (seriesFrame P a) = true)) as [Hf | Hf];
    simpl in Hf.
  - rewrite fmap_cons, IH. reflexivity.
  - rewrite bool_decide_eq_true_2 in Hf by exact Ha. congruence.
  - rewrite bool_decide_eq_false_2 in Hf by exact Ha. congruence.
  - exact IH.
Qed.

Lemma forecast_group (P l : list Z) :
  ts <$> filter (fun f => isPast f = false) (seriesFrame P <$> l) =
  filter (fun t => t ∉ P) l.
Proof.
  induction l as [|a l IH]; [reflexivity |].
  rewrite fmap_cons, !filter_cons.
  destruct (decide (a ∉ P)) as [Ha | Ha];
    destruct (decide (isPast (seriesFrame P a) = false)) as [Hf | Hf];
    simpl in Hf.
  - rewrite fmap_cons, IH. reflexivity.
  - rewrite bool_decide_eq_false_2 in Hf by exact Ha. congruence.
  - apply bool_decide_eq_false in Hf. contradiction.
  - exact IH.
Qed.

Lemma StronglySorted_filter {A : Type} (R : relation A) (P : A -> Prop)
    `{forall x, Decision (P x)} (l : list A) :
  StronglySorted R l -> StronglySorted R (filter P l).
Proof.
  induction 1 as [|a l Hl IH Ha]; [constructor |].
  rewrite filter_cons. destruct (decide (P a)); [| exact IH].
  constructor; [exact IH |].
  apply Forall_forall. intros x Hx. apply list_elem_of_filter in Hx as [_ Hx].
  rewrite Forall_forall in Ha. now apply Ha.
Qed.

(** In an ascending list whose elements outside [P] are above all of [P],
    no element of [P] comes after an element outside [P]. *)
Lemma flags_past_first (P l : list Z) :
  StronglySorted Z.le l ->
  (forall a, a ∈ l -> a ∉ P -> forall p, p ∈ P -> p <= a) ->
  StronglySorted past_before (seriesFrame P <$> l).
Proof.
  induction 1 as [|a l Hl IH Ha]; intros Habove; [constructor |].
  rewrite fmap_cons. constructor.
  - apply IH. intros b Hb. apply Habove. now apply list_elem_of_further.
  - apply Forall_fmap, Forall_forall. intros b Hb.
    unfold past_before. simpl. intros Hout.
    apply bool_decide_eq_false in Hout. apply bool_decide_eq_false.
    intros Hin.
    assert (b <= a) by (apply (Habove a); [apply list_elem_of_here | exact Hout | exact Hin]).
    rewrite Forall_forall in Ha. specialize (Ha b Hb).
    assert (a = b) by lia. congruence.
Qed.

Lemma series_ordered (P N : list Z) :
  Sorted Z.le (P ++ N) -> timeline_ordered (seriesFrame P <$> (P ++ N)).
Proof.
  intros Hs. apply (Sorted_StronglySorted Z.le) in Hs.
  repeat split.
  - apply flags_past_first; [exact Hs |].
    intros a Ha Hout p Hp.
    apply elem_of_app in Ha as [Ha | Ha]; [contradiction |].
    now apply (StronglySorted_app_1_elem_of Z.le P N).
  - rewrite past_group. apply StronglySorted_Sorted.
    now apply StronglySorted_filter.
  - rewrite forecast_group. apply StronglySorted_Sorted.
    now apply StronglySorted_filter.
Qed.

(** C7, as amended. Whenever the manifest is obtained and its past
    timestamps followed by its nowcast timestamps ascend (each list is
    chronological and no nowcast frame is earlier than a past frame), the
    series of [getRadarSeries] holds these timestamps in that order and
    satisfies the ordering invariant: past frames first, each group
    ascending. *)
Theorem getRadarSeries_ordered (net : Network Maps) (this this' : Adapter)
    (w w' : World) (maps : Maps) :
  getAvailableMaps net this w = (Ok maps, this', w') ->
  Sorted Z.le (past_times maps ++ nowcast_times maps) ->
  exists s, getRadarSeries net this w = (Ok s, this', w') /\
            ts <$> series s = past_times maps ++ nowcast_times maps /\
            timeline_ordered (series s).
Proof.
  intros H Hsorted. unfold getRadarSeries.
  rewrite (getRadarTimestamps_of_maps net this this' w w' maps H). simpl.
  rewrite radarTimestamps_merge.
  eexists. split; [reflexivity |]. simpl. split.
  - rewrite <- list_fmap_compose. simpl. apply list_fmap_id.
  - now apply series_ordered.
Qed.

Lemma getRadarSeries_ordered_witness :
  exists s,
    getRadarSeries (serving (manifest [100; 200] [200; 300])) (new None) midnight =
      (Ok s, with_cache (Some (manifest [100; 200] [200; 300])) 0 (new None),
       issue "http://localhost:8081/https://api.rainviewer.com/public/weather-maps.json" midnight) /\
    ts <$> series s = [100; 200] ++ [200; 300] /\
    timeline_ordered (series s).
Proof.
  apply (getRadarSeries_ordered (serving (manifest [100; 200] [200; 300]))
           (new None) _ midnight _ (manifest [100; 200] [200; 300])).
  - vm_compute. reflexivity.
  - repeat constructor; vm_compute; discriminate.
Defined.

(** C7, as stated, fails on a manifest whose two lists are each
    chronological but overlap in time: a nowcast timestamp that is also a
    past timestamp is flagged past, after a nowcast frame that is not. *)
Lemma overlapping_lists_break_order :
  Sorted Z.le (past_times (manifest [100; 300] [200; 300])) /\
  Sorted Z.le (nowcast_times (manifest [100; 300] [200; 300])) /\
  outcome (getRadarSeries (serving (manifest [100; 300] [200; 300])) (new None) midnight) =
    Ok {| series := [ {| ts := 100; isPast := true |}; {| ts := 300; isPast := true |};
                      {| ts := 200; isPast := false |}; {| ts := 300; isPast := true |} ];
          current := Some 300;
          metadata := {| source := "RainViewer"; updateInterval := 300000 |} |} /\
  ~ timeline_ordered
      [ {| ts := 100; isPast := true |}; {| ts := 300; isPast := true |};
        {| ts := 200; isPast := false |}; {| ts := 300; isPast := true |} ].
Proof.
  split; [repeat constructor; vm_compute; discriminate |].
  split; [repeat constructor; vm_compute; discriminate |].
  split; [vm_compute; reflexivity |].
  intros [Hfirst _].
  apply StronglySorted_inv in Hfirst as [Hfirst _].
  apply StronglySorted_inv in Hfirst as [Hfirst _].
  apply StronglySorted_inv in Hfirst as [_ Hlate].
  apply Forall_inv in Hlate. unfold past_before in Hlate. simpl in Hlate.
  specialize (Hlate eq_refl). discriminate.
Qed.

End Timeline.


(** ** Radar tile addresses *)

Module TileUrl.
Import RainViewerAdapter Spec Fixtures.

Lemma or_else_supplied (fallback : Z) (v : Js.Value) :
  absent_or_truthy v -> Js.or_else v (Js.Number fallback) = supplied_or fallback v.
Proof.
  unfold Js.or_else. intros [-> | Ht]; [reflexivity |].
  rewrite Ht. destruct v; try reflexivity. discriminate.
Qed.

Example tile_no_options :
  getRadarTileUrl (new None) 1700000000 5 9 12 no_options =
  "https://tilecache.rainviewer.com/v2/radar/1700000000/5/9/12/256/1_1.png".
Proof. vm_compute. reflexivity. Qed.

(** The colour scheme 0 of [getColorSchemes] cannot be selected: [0] is
    falsy, so [options.color || 1] is [1]. *)
Example tile_color_zero :
  getRadarTileUrl (new None) 1700000000 5 9 12 (only_color (Js.Number 0)) =
  "https://tilecache.rainviewer.com/v2/radar/1700000000/5/9/12/256/1_1.png".
Proof. vm_compute. reflexivity. Qed.

(** C8, as amended. [getRadarTileUrl] is a function of its arguments and
    the adapter's tile base address only; an absent style option takes its
    default (size 256, colour scheme 1, smoothing 1), and a truthy one is
    used as given, whether or not it belongs to an enumeration. *)
Theorem getRadarTileUrl_defaults (this : Adapter) (timestamp z x y : Z)
    (options : TileOptions) :
  absent_or_truthy (size options) ->
  absent_or_truthy (color options) ->
  absent_or_truthy (smooth options) ->
  getRadarTileUrl this timestamp z x y options =
  radar_tile (tileBaseUrl this) timestamp z x y
    (supplied_or 256 (size options))
    (supplied_or 1 (color options))
    (supplied_or 1 (smooth options)).
Proof.
  intros Hsize Hcolor Hsmooth. unfold getRadarTileUrl, radar_tile.
  now rewrite !or_else_supplied.
Qed.

Lemma getRadarTileUrl_defaults_witness :
  getRadarTileUrl (new None) 1700000000 5 9 12
    {| size := Js.Number 512; color := Js.Number 99;
       smooth := Js.Undefined; snow := Js.Undefined |} =
  "https://tilecache.rainviewer.com/v2/radar/1700000000/5/9/12/512/99_1.png".
Proof.
  rewrite getRadarTileUrl_defaults.
  - vm_compute. reflexivity.
  - right. reflexivity.
  - right. reflexivity.
  - left. reflexivity.
Defined.

(** C8, as stated, fails on a colour scheme outside 0-8: the adapter does
    not validate, and the value 99 reaches the address where the default 1
    was promised. *)
Lemma unknown_color_is_kept :
  getRadarTileUrl (new None) 1700000000 5 9 12 (only_color (Js.Number 99)) =
    "https://tilecache.rainviewer.com/v2/radar/1700000000/5/9/12/256/99_1.png" /\
  validated_tile [256; 512] (new None) 1700000000 5 9 12 (only_color (Js.Number 99)) =
    "https://tilecache.rainviewer.com/v2/radar/1700000000/5/9/12/256/1_1.png" /\
  getRadarTileUrl (new None) 1700000000 5 9 12 (only_color (Js.Number 99)) <>
    validated_tile [256; 512] (new None) 1700000000 5 9 12 (only_color (Js.Number 99)).
Proof.
  split; [vm_compute; reflexivity |].
  split; [vm_compute; reflexivity |].
  vm_compute. discriminate.
Qed.

End TileUrl.

(** ** The cached fetch *)

Module CachedFetch.
Import Async OpenWeatherMapAdapter Spec Fixtures.

(** A fetch fails by a transport error, a status outside 200-299, or a
    body that does not parse. *)
Lemma parsed_throws {Json : Type} (r : Response Json) (e : Exn) :
  parsed r = Throw e <->
  (exists reason, r = Rejected reason /\ e = NetworkError reason) \/
  (exists status body, r = Responded status body /\ ok status = false /\
                       e = HttpError status) \/
  (exists status, r = Responded status None /\ ok status = true /\ e = SyntaxError).
Proof.
  split.
  - destruct r as [reason | status body]; simpl.
    + intros [= <-]. left. now exists reason.
    + destruct (ok status) eqn:Hok; simpl.
      * destruct body as [d|]; [discriminate |].
        intros [= <-]. right; right. now exists status.
      * intros [= <-]. right; left. now exists status, body.
  - intros [(reason & -> & ->) | [(status & body & -> & Hok & ->) | (status & -> & Hok & ->)]];
      simpl; [reflexivity | now rewrite Hok | now rewrite Hok].
Qed.

Section Fetch.
Context {Json : Type}.
Variable net : Network Json.
Variable this : Adapter Json.
Variables url cacheKey : string.
Variable w : World.

Lemma begin_miss :
  no_fresh_entry this cacheKey w ->
  _fetchWithCache_begin this url cacheKey w =
    (Awaiting (length (requests w)) (proxied this url) cacheKey (cache this !! cacheKey),
     issue (proxied this url) w).
Proof.
  intros Hstale. unfold _fetchWithCache_begin, proxied.
  destruct (cache this !! cacheKey) as [c|] eqn:Hc; [| reflexivity].
  specialize (Hstale c Hc).
  destruct (Z.ltb_spec (clock w - timestamp c) (cacheTTL this)); [lia | reflexivity].
Qed.

Lemma fresh_hit (c : CacheEntry Json) :
  cache this !! cacheKey = Some c ->
  clock w - timestamp c < cacheTTL this ->
  _fetchWithCache net this url cacheKey w =
    (Ok (data c), this, emit Log ("Using cached data for: " +:+ cacheKey) None w).
Proof.
  intros Hc Hfresh. unfold _fetchWithCache, _fetchWithCache_begin. rewrite Hc.
  destruct (Z.ltb_spec (clock w - timestamp c) (cacheTTL this)); [reflexivity | lia].
Qed.

Lemma miss_then_success (payload : Json) :
  no_fresh_entry this cacheKey w ->
  parsed (response (reply_to net this url w)) = Ok payload ->
  _fetchWithCache net this url cacheKey w =
    (Ok payload,
     with_cache (<[cacheKey := {| data := payload;
                                  timestamp := clock w + elapsed (reply_to net this url w) |}]>
                   (cache this)) this,
     advance (elapsed (reply_to net this url w)) (issue (proxied this url) w)).
Proof.
  intros Hstale Hok. unfold _fetchWithCache. rewrite (begin_miss Hstale).
  unfold _fetchWithCache_resume. fold (reply_to net this url w). now rewrite Hok.
Qed.

(** C1. When the cache holds no fresh entry for the key and the fetch
    fails, [_fetchWithCache] returns the data of the stale entry, leaves the
    adapter as it was and warns on the console after reporting the error;
    without any entry for the key it throws the error of the fetch. *)
Theorem stale_entry_served_on_failure (e : Exn) :
  no_fresh_entry this cacheKey w ->
  parsed (response (reply_to net this url w)) = Throw e ->
  _fetchWithCache net this url cacheKey w =
    let failed := emit Error "API fetch error:" (Some e)
                       (advance (elapsed (reply_to net this url w))
                                (issue (proxied this url) w)) in
    match cache this !! cacheKey with
    | Some c => (Ok (data c), this,
                 emit Warn "Using expired cache due to fetch error" None failed)
    | None => (Throw e, this, failed)
    end.
Proof.
  intros Hstale Hfail. unfold _fetchWithCache. rewrite (begin_miss Hstale).
  unfold _fetchWithCache_resume. fold (reply_to net this url w). rewrite Hfail.
  now destruct (cache this !! cacheKey).
Qed.

(** C5. A fresh entry is returned without any request, the adapter being
    left as it was; hence a call that had to fetch and succeeded, followed
    by a call for the same key less than the TTL after the entry was
    stored, issues one request in all, and both return the fetched
    payload. *)
Theorem fresh_entry_served_without_fetch :
  (forall c, cache this !! cacheKey = Some c ->
             clock w - timestamp c < cacheTTL this ->
             exists w', _fetchWithCache net this url cacheKey w = (Ok (data c), this, w') /\
                        requests w' = requests w) /\
  (forall payload dt,
     no_fresh_entry this cacheKey w ->
     parsed (response (reply_to net this url w)) = Ok payload ->
     dt < cacheTTL this ->
     exists this1 w1 this2 w2,
       _fetchWithCache net this url cacheKey w = (Ok payload, this1, w1) /\
       _fetchWithCache net this1 url cacheKey (advance dt w1) = (Ok payload, this2, w2) /\
       this2 = this1 /\
       requests w2 = requests w ++ [proxied this url]).
Proof.
  split.
  - intros c Hc Hfresh. eexists. split; [now apply fresh_hit | reflexivity].
  - intros payload dt Hstale Hok Hdt.
    do 4 eexists. split; [now apply miss_then_success |].
    unfold _fetchWithCache, _fetchWithCache_begin. simpl.
    rewrite lookup_insert_eq. simpl.
    destruct (Z.ltb_spec (clock w + elapsed (reply_to net this url w) + dt -
                          (clock w + elapsed (reply_to net this url w)))
                         (cacheTTL this)); [| lia].
    simpl. repeat split; reflexivity.
Qed.

End Fetch.

Lemma stale_entry_served_on_failure_witness :
  _fetchWithCache (answering 5 (Responded 503 None)) (holding "k" "old") "u" "k"
                  (at_time 700000) =
    (Ok "old", holding "k" "old",
     {| clock := 700005;
        console := [ {| level := Error; text := "API fetch error:";
                        attached := Some (HttpError 503) |};
                     {| level := Warn; text := "Using expired cache due to fetch error";
                        attached := None |} ];
        requests := ["http://localhost:8081/u"] |}).
Proof.
  rewrite (stale_entry_served_on_failure
             (answering 5 (Responded 503 None)) (holding "k" "old") "u" "k"
             (at_time 700000) (HttpError 503)).
  - vm_compute. reflexivity.
  - intros c Hc. vm_compute in Hc. injection Hc as <-. simpl. lia.
  - vm_compute. reflexivity.
Defined.

Example nothing_cached_failure_propagates :
  outcome (_fetchWithCache (answering 5 (Rejected "Failed to fetch"))
                           (new (Json := string) "KEY" None) "u" "k" (at_time 700000)) =
    Throw (NetworkError "Failed to fetch").
Proof. vm_compute. reflexivity. Qed.

Lemma fresh_entry_served_without_fetch_witness :
  (exists w',
     _fetchWithCache (answering 5 (Rejected "offline")) (holding "k" "old") "u" "k"
                     (at_time 1000) = (Ok "old", holding "k" "old", w') /\
     requests w' = requests (at_time 1000)) /\
  (exists this1 w1 this2 w2,
     _fetchWithCache (serving "fresh") (new "KEY" None) "u" "k" (at_time 1000) =
       (Ok "fresh", this1, w1) /\
     _fetchWithCache (serving "fresh") this1 "u" "k" (advance 599999 w1) =
       (Ok "fresh", this2, w2) /\
     this2 = this1 /\
     requests w2 = requests (at_time 1000) ++ ["http://localhost:8081/u"]).
Proof.
  split.
  - apply (proj1 (fresh_entry_served_without_fetch
                    (answering 5 (Rejected "offline")) (holding "k" "old") "u" "k"
                    (at_time 1000))
                 {| data := "old"; timestamp := 0 |}).
    + vm_compute. reflexivity.
    + simpl. lia.
  - apply (proj2 (fresh_entry_served_without_fetch
                    (serving "fresh") (new "KEY" None) "u" "k" (at_time 1000))
                 "fresh" 599999).
    + intros c Hc. vm_compute in Hc. discriminate.
    + vm_compute. reflexivity.
    + simpl. lia.
Defined.

End CachedFetch.


(** ** The aggregator *)

Module Aggregation.
Import Async OpenWeatherMapAdapter Spec Fixtures.

Section Aggregate.
Context {Json Canon : Type} {normalisation : Normalisation Json Canon}.
Variable net : Network Json.

(** The outcome of a suspended call does not depend on the adapter and the
    world in which it is resumed. *)
Lemma resume_settles (p : Pending Json) (this : Adapter Json) (w : World) :
  outcome (_fetchWithCache_resume net p this w) = settles net p.
Proof.
  unfold outcome. destruct p as [v | rank address key cached]; simpl; [reflexivity |].
  destruct (parsed (response (net rank address))); [reflexivity |].
  now destruct cached.
Qed.

(** Resuming issues no request. *)
Lemma resume_requests (p : Pending Json) (this : Adapter Json) (w : World) :
  requests (world_after (_fetchWithCache_resume net p this w)) = requests w.
Proof.
  unfold world_after. destruct p as [v | rank address key cached]; simpl; [reflexivity |].
  destruct (parsed (response (net rank address))); [reflexivity |].
  now destruct cached.
Qed.

Lemma complete_resume_assembled (pp : Pending Json * Pending Json)
    (this : Adapter Json) (w : World) :
  outcome (getCompleteWeatherData_resume net pp this w) = assembled net pp.
Proof.
  unfold getCompleteWeatherData_resume, assembled.
  pose proof (resume_settles pp.1 this w) as H1.
  destruct (_fetchWithCache_resume net pp.1 this w) as [[r1 this1] w1].
  pose proof (resume_settles pp.2 this1 w1) as H2.
  destruct (_fetchWithCache_resume net pp.2 this1 w1) as [[r2 this2] w2].
  unfold outcome in *. simpl in H1, H2. rewrite <- H1, <- H2.
  destruct r1 as [d | e]; destruct r2 as [a | e']; simpl;
    try match goal with |- context [snapshot ?d ?a] => destruct (snapshot d a) end;
    reflexivity.
Qed.

Lemma complete_resume_requests (pp : Pending Json * Pending Json)
    (this : Adapter Json) (w : World) :
  requests (world_after (getCompleteWeatherData_resume net pp this w)) = requests w.
Proof.
  unfold getCompleteWeatherData_resume.
  pose proof (resume_requests pp.1 this w) as H1.
  destruct (_fetchWithCache_resume net pp.1 this w) as [[r1 this1] w1].
  pose proof (resume_requests pp.2 this1 w1) as H2.
  destruct (_fetchWithCache_resume net pp.2 this1 w1) as [[r2 this2] w2].
  unfold world_after in *. simpl in H1, H2. rewrite <- H1, <- H2.
  destruct r1 as [d | e]; destruct r2 as [a | e']; simpl;
    try match goal with |- context [snapshot ?d ?a] => destruct (snapshot d a) end;
    reflexivity.
Qed.

Lemma snapshot_without_air_quality (oneCallData : Json) (s : Snapshot Json Canon) :
  snapshot oneCallData None = Ok s -> airQuality s = None.
Proof.
  unfold snapshot, mbind, result_bind. intros H.
  repeat match type of H with
         | context [match ?x with Ok _ => _ | Throw _ => _ end] =>
             destruct x; try discriminate
         end.
  injection H as <-. reflexivity.
Qed.

Lemma getOneCallData_settles (this : Adapter Json) (lat lon : Coord) (w : World) :
  outcome (getOneCallData net this lat lon w) =
  settles net (getOneCallData_begin this lat lon w).1.
Proof.
  unfold getOneCallData.
  destruct (getOneCallData_begin this lat lon w) as [p w1]. apply resume_settles.
Qed.

Lemma getAirQuality_settles (this : Adapter Json) (lat lon : Coord) (w : World) :
  outcome (getAirQuality net this lat lon w) =
  settles net (getAirQuality_begin this lat lon w).1.
Proof.
  unfold getAirQuality.
  destruct (getAirQuality_begin this lat lon w) as [p w1]. apply resume_settles.
Qed.

Lemma getCompleteWeatherData_assembled (this : Adapter Json) (lat lon : Coord) (w : World) :
  outcome (getCompleteWeatherData net this lat lon w) =
  assembled net (getCompleteWeatherData_begin this lat lon w).1.
Proof.
  unfold getCompleteWeatherData.
  destruct (getCompleteWeatherData_begin this lat lon w) as [pp w1].
  apply complete_resume_assembled.
Qed.

(** C3. [getCompleteWeatherData] launches the conditions call and then the
    air-quality call before it consumes any reply, and issues no other
    request.  When the conditions call rejects, the whole call rejects with
    the same error.  When the conditions call yields a payload and the
    air-quality call rejects, the whole call yields the snapshot assembled
    from that payload alone, and such a snapshot has [airQuality] equal to
    [null]. *)
Theorem getCompleteWeatherData_failures (this : Adapter Json) (lat lon : Coord)
    (w : World) :
  let launched := (getOneCallData_begin this lat lon w).2 in
  let conditions := outcome (getOneCallData net this lat lon w) in
  let air := outcome (getAirQuality net this lat lon launched) in
  let call := getCompleteWeatherData net this lat lon w in
  requests (world_after call) = requests (getAirQuality_begin this lat lon launched).2 /\
  (forall e, conditions = Throw e -> outcome call = Throw e) /\
  (forall d e, conditions = Ok d -> air = Throw e ->
               outcome call = snapshot d None /\
               forall s, snapshot d None = Ok s -> airQuality s = None).
Proof.
  cbv zeta.
  rewrite getCompleteWeatherData_assembled, getOneCallData_settles, getAirQuality_settles.
  unfold getCompleteWeatherData, getCompleteWeatherData_begin, assembled.
  destruct (getOneCallData_begin this lat lon w) as [p1 w1]. simpl.
  destruct (getAirQuality_begin this lat lon w1) as [p2 w2]. simpl.
  split; [apply complete_resume_requests |]. split.
  - intros e ->. reflexivity.
  - intros d e -> ->. simpl. split; [reflexivity |].
    apply snapshot_without_air_quality.
Qed.

(** The promises of the batch are all fulfilled, each with what its two
    suspended calls amount to, or [null]. *)
Lemma batch_settle_outcomes (pps : list (Location * (Pending Json * Pending Json)))
    (this : Adapter Json) (w : World) :
  (getBatchWeatherData_settle net pps this w).1.1 =
  (fun lpp => Ok (or_null (assembled net lpp.2))) <$> pps.
Proof.
  revert this w. induction pps as [|[loc pp] pps IH]; intros this w; [reflexivity |].
  simpl.
  pose proof (complete_resume_assembled pp this w) as Hpp.
  destruct (getCompleteWeatherData_resume net pp this w) as [[r this1] w1].
  unfold outcome in Hpp. simpl in Hpp. subst r.
  destruct (assembled net pp) as [s | e]; simpl.
  - specialize (IH this1 w1).
    destruct (getBatchWeatherData_settle net pps this1 w1) as [[vs this2] w2].
    simpl in *. now rewrite IH.
  - match goal with
    | |- context [getBatchWeatherData_settle net pps this1 ?w'] =>
        specialize (IH this1 w');
        destruct (getBatchWeatherData_settle net pps this1 w') as [[vs this2] w2]
    end.
    simpl in *. now rewrite IH.
Qed.

Lemma promise_all_fulfilled {A : Type} (vs : list A) :
  promise_all (Ok <$> vs) = Ok vs.
Proof.
  induction vs as [|v vs IH]; [reflexivity |].
  rewrite fmap_cons. cbn [promise_all]. now rewrite IH.
Qed.

(** The calls suspended by the launch of the batch, location by
    location. *)
Lemma batch_begin_pending (this : Adapter Json) (locations : list Location) (w : World) :
  (getBatchWeatherData_begin this locations w).1 =
  imap (fun i loc =>
          (loc, (getCompleteWeatherData_begin this (loc_lat loc) (loc_lon loc)
                   (getBatchWeatherData_begin this (take i locations) w).2).1))
       locations.
Proof.
  revert w. induction locations as [|loc rest IH]; intros w; [reflexivity |].
  rewrite imap_cons. simpl.
  destruct (getCompleteWeatherData_begin this (loc_lat loc) (loc_lon loc) w) as [pp w1] eqn:Hpp.
  specialize (IH w1).
  destruct (getBatchWeatherData_begin this rest w1) as [pps w2] eqn:Hrest.
  simpl in *. f_equal. rewrite IH. apply imap_ext. intros i loc' _. simpl.
  rewrite Hpp.
  now destruct (getBatchWeatherData_begin this (take i rest) w1).
Qed.

(** C2. [getBatchWeatherData] is fulfilled with a list as long as the list
    of locations, whose entry at each index is what a call of
    [getCompleteWeatherData] for the location at that index, launched when
    the batch launches it, yields on its own: its snapshot, or [null] when
    it rejects. *)
Theorem getBatchWeatherData_index_aligned (this : Adapter Json)
    (locations : list Location) (w : World) :
  exists out,
    outcome (getBatchWeatherData net this locations w) = Ok out /\
    length out = length locations /\
    out = imap (fun i loc =>
                  or_null (outcome (getCompleteWeatherData net this
                                      (loc_lat loc) (loc_lon loc)
                                      (getBatchWeatherData_begin this (take i locations) w).2)))
               locations.
Proof.
  eexists. split; [| split; [| reflexivity]]; [| apply length_imap].
  unfold getBatchWeatherData, outcome.
  pose proof (batch_begin_pending this locations w) as Hbegin.
  destruct (getBatchWeatherData_begin this locations w) as [pps w1]. simpl in Hbegin.
  pose proof (batch_settle_outcomes pps this w1) as Hsettle.
  destruct (getBatchWeatherData_settle net pps this w1) as [[promises this1] w2].
  simpl in *. subst promises pps.
  rewrite fmap_imap.
  rewrite <- (promise_all_fulfilled (imap _ locations)).
  f_equal. rewrite fmap_imap. apply imap_ext. intros i loc _. simpl.
  rewrite <- getCompleteWeatherData_assembled. reflexivity.
Qed.

End Aggregate.


Lemma getCompleteWeatherData_failures_witness :
  outcome (getCompleteWeatherData (normalisation := tracing)
             (failing_on "air_pollution" "NYC") (new "KEY" None) "40.7" "-74" midnight) =
    Ok {| current := "current@NYC"; hourly := "hourly@NYC"; daily := "daily@NYC";
          alerts := "alerts@NYC"; airQuality := None; timezone := "timezone@NYC";
          lat := "lat@NYC"; lon := "lon@NYC" |} /\
  outcome (getCompleteWeatherData (normalisation := tracing)
             (failing_on "onecall" "NYC") (new "KEY" None) "40.7" "-74" midnight) =
    Throw (NetworkError "Failed to fetch") /\
  requests (world_after (getCompleteWeatherData (normalisation := tracing)
                           (failing_on "onecall" "NYC") (new "KEY" None)
                           "40.7" "-74" midnight)) =
    [ "http://localhost:8081/https://api.openweathermap.org/data/3.0/onecall?lat=40.7&lon=-74&units=imperial&exclude=minutely&appid=KEY";
      "http://localhost:8081/https://api.openweathermap.org/data/2.5/air_pollution?lat=40.7&lon=-74&appid=KEY" ].
Proof.
  split; [| split].
  - rewrite (proj1 (proj2 (proj2 (getCompleteWeatherData_failures (normalisation := tracing)
                                    (failing_on "air_pollution" "NYC") (new "KEY" None)
                                    "40.7" "-74" midnight))
                          "NYC" (NetworkError "Failed to fetch") eq_refl eq_refl)).
    vm_compute. reflexivity.
  - apply (proj1 (proj2 (getCompleteWeatherData_failures (normalisation := tracing)
                           (failing_on "onecall" "NYC") (new "KEY" None)
                           "40.7" "-74" midnight))).
    vm_compute. reflexivity.
  - rewrite (proj1 (getCompleteWeatherData_failures (normalisation := tracing)
                      (failing_on "onecall" "NYC") (new "KEY" None)
                      "40.7" "-74" midnight)).
    vm_compute. reflexivity.
Defined.

Lemma getBatchWeatherData_index_aligned_witness :
  exists a c,
    outcome (getBatchWeatherData (normalisation := tracing)
               (failing_on "onecall?lat=2&" "payload") (new "KEY" None)
               [place "1" "1"; place "2" "2"; place "3" "3"] midnight) =
      Ok [Some a; None; Some c].
Proof.
  destruct (getBatchWeatherData_index_aligned (normalisation := tracing)
              (failing_on "onecall?lat=2&" "payload") (new "KEY" None)
              [place "1" "1"; place "2" "2"; place "3" "3"] midnight)
    as (out & Hout & _ & Heq).
  vm_compute in Heq. subst out.
  eexists _, _. rewrite Hout. reflexivity.
Defined.

(** A stale conditions entry keeps the snapshot alive when the network is
    down, and air quality is then [null]. *)
Example stale_conditions_keep_snapshot :
  or_null (outcome (getCompleteWeatherData (normalisation := tracing)
                      (answering 3 (Rejected "offline"))
                      (holding "onecall_40.7_-74" "OLD") "40.7" "-74" (at_time 900000))) =
    Some {| current := "current@OLD"; hourly := "hourly@OLD"; daily := "daily@OLD";
            alerts := "alerts@OLD"; airQuality := None; timezone := "timezone@OLD";
            lat := "lat@OLD"; lon := "lon@OLD" |}.
Proof. vm_compute. reflexivity. Qed.

End Aggregation.


(** ** More on the cached fetch *)

Module CacheLaws.
Import Async OpenWeatherMapAdapter Spec Laws Fixtures.

Section Fetch.
Context {Json : Type}.
Variable net : Network Json.
Variable this : Adapter Json.
Variables url cacheKey : string.
Variable w : World.

(** A call leaves the adapter as it was, or stores what it returns under
    its key. *)
Lemma fetch_adapter_cases :
  adapter_after (_fetchWithCache net this url cacheKey w) = this \/
  exists payload t,
    outcome (_fetchWithCache net this url cacheKey w) = Ok payload /\
    adapter_after (_fetchWithCache net this url cacheKey w) =
      with_cache (<[cacheKey := {| data := payload; timestamp := t |}]> (cache this)) this.
Proof.
  unfold _fetchWithCache, _fetchWithCache_begin, adapter_after, outcome.
  destruct (cache this !! cacheKey) as [c|] eqn:Hc; simpl.
  - destruct (clock w - timestamp c <? cacheTTL this); simpl; [now left |].
    destruct (parsed _) as [payload | e]; simpl; [| now left].
    right. now exists payload, (clock w + elapsed (net (length (requests w)) (corsProxyUrl this +:+ url))).
  - destruct (parsed _) as [payload | e]; simpl; [| now left].
    right. now exists payload, (clock w + elapsed (net (length (requests w)) (corsProxyUrl this +:+ url))).
Qed.

Lemma ok_entry (d : Json) (this' : Adapter Json) (w' : World) :
  _fetchWithCache net this url cacheKey w = (Ok d, this', w') ->
  exists entry, cache this' !! cacheKey = Some entry /\ data entry = d.
Proof.
  unfold _fetchWithCache, _fetchWithCache_begin.
  destruct (cache this !! cacheKey) as [c|] eqn:Hc; simpl.
  - destruct (clock w - timestamp c <? cacheTTL this); simpl.
    + intros [= <- <- <-]. now exists c.
    + destruct (parsed _) as [payload | e]; simpl; intros [= <- <- <-].
      * eexists. split; [apply lookup_insert_eq | reflexivity].
      * now exists c.
  - destruct (parsed _) as [payload | e]; simpl; intros H; [| discriminate].
    injection H as <- <- <-. eexists. split; [apply lookup_insert_eq | reflexivity].
Qed.


(** X2. A call for one key never touches the entry of another key, never
    removes an entry, and keeps the TTL. *)
Theorem other_entries_untouched (other : string) :
  let this' := adapter_after (_fetchWithCache net this url cacheKey w) in
  (other <> cacheKey -> cache this' !! other = cache this !! other) /\
  (is_Some (cache this !! other) -> is_Some (cache this' !! other)) /\
  cacheTTL this' = cacheTTL this.
Proof.
  cbv zeta.
  destruct fetch_adapter_cases as [-> | (payload & t & _ & ->)]; [auto |].
  simpl. repeat split.
  - intros Hne. now apply lookup_insert_ne.
  - intros Hsome. destruct (decide (cacheKey = other)) as [-> | Hne].
    + rewrite lookup_insert_eq. eauto.
    + now rewrite lookup_insert_ne.
Qed.

(** X3. With any entry cached for the key, however old, [_fetchWithCache]
    never throws: it returns the cached data or the payload just
    fetched. *)
Theorem cached_key_never_throws (entry : CacheEntry Json) :
  cache this !! cacheKey = Some entry ->
  exists d, outcome (_fetchWithCache net this url cacheKey w) = Ok d /\
            (d = data entry \/ parsed (response (reply_to net this url w)) = Ok d).
Proof.
  intros Hc. unfold _fetchWithCache, _fetchWithCache_begin, outcome, reply_to, proxied.
  rewrite Hc.
  destruct (clock w - timestamp entry <? cacheTTL this); simpl; [eauto |].
  destruct (parsed _) as [payload | e] eqn:Hp; simpl; eauto.
Qed.

(** X4. After [clearCache()] a call always issues its request, and its
    outcome is that of the fetch alone: a failure is thrown, as no entry
    is left to fall back on. *)
Theorem clearCache_removes_fallback :
  outcome (_fetchWithCache net (clearCache this) url cacheKey w) =
    parsed (response (reply_to net this url w)) /\
  requests (world_after (_fetchWithCache net (clearCache this) url cacheKey w)) =
    requests w ++ [proxied this url].
Proof.
  unfold _fetchWithCache, _fetchWithCache_begin, outcome, world_after, reply_to, proxied.
  simpl. rewrite lookup_empty. simpl.
  destruct (parsed _) as [payload | e]; simpl; split; reflexivity.
Qed.

(** X5. After [setCacheTTL(ms)] with [ms <= 0], an entry stored at or
    before the current time is never fresh: the call issues its
    request. *)
Theorem nonpositive_ttl_always_fetches (ms : Z) :
  ms <= 0 ->
  (forall c, cache this !! cacheKey = Some c -> timestamp c <= clock w) ->
  requests (world_after (_fetchWithCache net (setCacheTTL ms this) url cacheKey w)) =
    requests w ++ [proxied this url].
Proof.
  intros Hms Hpast.
  unfold _fetchWithCache, _fetchWithCache_begin, world_after, proxied. simpl.
  destruct (cache this !! cacheKey) as [c|] eqn:Hc; simpl.
  - specialize (Hpast c eq_refl).
    destruct (Z.ltb_spec (clock w - timestamp c) ms); [lia |]. simpl.
    destruct (parsed _); simpl; reflexivity.
  - destruct (parsed _); simpl; reflexivity.
Qed.

End Fetch.


Lemma cached_key_never_throws_witness :
  exists d,
    outcome (_fetchWithCache (answering 5 (Rejected "offline")) (holding "k" "old")
                             "u" "k" (at_time 700000)) = Ok d /\
    (d = "old" \/
     parsed (response (reply_to (answering 5 (Rejected "offline")) (holding "k" "old")
                                "u" (at_time 700000))) = Ok d).
Proof.
  apply (cached_key_never_throws (answering 5 (Rejected "offline")) (holding "k" "old")
           "u" "k" (at_time 700000) {| data := "old"; timestamp := 0 |}).
  vm_compute. reflexivity.
Defined.

Lemma nonpositive_ttl_always_fetches_witness :
  requests (world_after (_fetchWithCache (serving "new") (setCacheTTL 0 (holding "k" "old"))
                                         "u" "k" (at_time 0))) =
    ["http://localhost:8081/u"].
Proof.
  apply (nonpositive_ttl_always_fetches (serving "new") (holding "k" "old") "u" "k"
           (at_time 0) 0).
  - lia.
  - intros c Hc. vm_compute in Hc. injection Hc as <-. simpl. lia.
Defined.

End CacheLaws.

(** ** Cache keys and the aggregator *)

Module AggregatorLaws.
Import Async OpenWeatherMapAdapter Spec Laws Fixtures.

Lemma underscore_free_cons (c : ascii) (s : string) :
  underscore_free (String c s) -> c <> "_"%char /\ underscore_free s.
Proof.
  unfold underscore_free. cbn [Js.includes Js.startsWith].
  destruct (Ascii.eqb_spec "_"%char c) as [<- | Hne].
  - discriminate.
  - intros H. split; [congruence | exact H].
Qed.

(** A text without underscore, an underscore and any text: the two parts
    can be read back. *)
Lemma underscore_separates (a a' b b' : string) :
  underscore_free a -> underscore_free a' ->
  a +:+ "_" +:+ b = a' +:+ "_" +:+ b' -> a = a' /\ b = b'.
Proof.
  revert a'. induction a as [|c a IH]; intros [|c' a'] Ha Ha' H; simpl in H.
  - now injection H.
  - injection H as Hc _. apply underscore_free_cons in Ha' as [Hne _]. congruence.
  - injection H as Hc _. apply underscore_free_cons in Ha as [Hne _]. congruence.
  - injection H as -> H.
    apply underscore_free_cons in Ha as [_ Ha].
    apply underscore_free_cons in Ha' as [_ Ha'].
    destruct (IH a' Ha Ha' H) as [-> ->]. now split.
Qed.

Section Keys.
Context {Json : Type}.
Variable net : Network Json.
Variable this : Adapter Json.

Lemma begin_after_insert (k : string) (e : CacheEntry Json) (url cacheKey : string)
    (w : World) :
  k <> cacheKey ->
  _fetchWithCache_begin (with_cache (<[k := e]> (cache this)) this) url cacheKey w =
  _fetchWithCache_begin this url cacheKey w.
Proof.
  intros Hne. unfold _fetchWithCache_begin. simpl. now rewrite lookup_insert_ne.
Qed.

(** X6. A conditions fetch, whatever its outcome, changes nothing to what
    a later air-quality, reverse-geocoding or search call does, for any
    coordinates and query: the endpoints never share a cache entry. *)
Theorem conditions_fetch_leaves_other_endpoints (lat lon lat' lon' query : string)
    (limit : option Z) (w w2 : World) :
  let this1 := adapter_after (getOneCallData net this lat lon w) in
  getAirQuality_begin this1 lat' lon' w2 = getAirQuality_begin this lat' lon' w2 /\
  reverseGeocode_begin this1 lat' lon' limit w2 = reverseGeocode_begin this lat' lon' limit w2 /\
  searchLocation_begin this1 query limit w2 = searchLocation_begin this query limit w2.
Proof.
  cbv zeta. unfold getOneCallData, getOneCallData_begin.
  match goal with
  | |- context [_fetchWithCache_begin this ?u ?k w] =>
      destruct (CacheLaws.fetch_adapter_cases net this u k w) as [H | (payload & t & _ & H)];
      unfold _fetchWithCache in H; rewrite H
  end.
  - auto.
  - unfold getAirQuality_begin, reverseGeocode_begin, searchLocation_begin.
    repeat split; apply begin_after_insert; simpl; discriminate.
Qed.

(** X7. A conditions fetch for one location changes nothing to what a
    later conditions call for another location does: two locations share
    a cache entry only if they have the same latitude and longitude. *)
Theorem locations_do_not_share (lat lon lat' lon' : string) (w w2 : World) :
  underscore_free lat -> underscore_free lat' ->
  (lat, lon) <> (lat', lon') ->
  getOneCallData_begin (adapter_after (getOneCallData net this lat lon w)) lat' lon' w2 =
  getOneCallData_begin this lat' lon' w2.
Proof.
  intros Hlat Hlat' Hne. unfold getOneCallData. unfold getOneCallData_begin at 2.
  match goal with
  | |- context [_fetchWithCache_begin this ?u ?k w] =>
      destruct (CacheLaws.fetch_adapter_cases net this u k w) as [H | (payload & t & _ & H)];
      unfold _fetchWithCache in H; rewrite H
  end.
  - reflexivity.
  - unfold getOneCallData_begin. apply begin_after_insert.
    intros Hkey. simpl in Hkey. injection Hkey as Hkey.
    apply underscore_separates in Hkey as [-> ->]; [now apply Hne | assumption..].
Qed.

(** X8. The limit of a search is not part of its cache key: after a search
    that fetched its answer into an empty cache, a search for the same
    query with any other limit, less than the TTL later, is answered by
    that same payload without a request. *)
Theorem search_ignores_limit (query : string) (limit limit' : option Z)
    (payload : Json) (this1 : Adapter Json) (w w1 : World) (dt : Z) :
  cache this = ∅ ->
  searchLocation net this query limit w = (Ok payload, this1, w1) ->
  dt < cacheTTL this ->
  exists w2,
    searchLocation net this1 query limit' (advance dt w1) = (Ok payload, this1, w2) /\
    requests w2 = requests w1.
Proof.
  intros Hempty Hfirst Hdt. revert Hfirst.
  unfold searchLocation, searchLocation_begin, _fetchWithCache_begin.
  rewrite Hempty, lookup_empty. simpl.
  destruct (parsed _) as [d | e]; simpl; intros H; [| discriminate].
  injection H as <- <- <-. simpl. rewrite lookup_insert_eq. simpl.
  match goal with
  | |- context [?a <? ?b] => destruct (Z.ltb_spec a b); [| lia]
  end.
  eexists. split; reflexivity.
Qed.

End Keys.

Lemma locations_do_not_share_witness :
  getOneCallData_begin
    (adapter_after (getOneCallData (serving "NYC") (new "KEY" None) "40.7" "-74" midnight))
    "40.7" "-73" (at_time 1000) =
  getOneCallData_begin (new "KEY" None) "40.7" "-73" (at_time 1000).
Proof.
  apply (locations_do_not_share (serving "NYC") (new "KEY" None) "40.7" "-74" "40.7" "-73").
  - vm_compute. reflexivity.
  - vm_compute. reflexivity.
  - intros H. discriminate H.
Defined.

Lemma search_ignores_limit_witness :
  exists w2,
    searchLocation (serving "results") (with_cache (<["search_Paris" := {| data := "results"; timestamp := 0 |}]> ∅) (new "KEY" None))
                   "Paris" (Some 10) (advance 1000 (issue "http://localhost:8081/https://api.openweathermap.org/geo/1.0/direct?q=Paris&limit=5&appid=KEY" midnight)) =
      (Ok "results",
       with_cache (<["search_Paris" := {| data := "results"; timestamp := 0 |}]> ∅) (new "KEY" None),
       w2) /\
    requests w2 =
      requests (issue "http://localhost:8081/https://api.openweathermap.org/geo/1.0/direct?q=Paris&limit=5&appid=KEY" midnight).
Proof.
  apply (search_ignores_limit (serving "results") (new "KEY" None) "Paris" None (Some 10)
           "results" _ midnight _ 1000).
  - reflexivity.
  - vm_compute. reflexivity.
  - simpl. lia.
Defined.

Section Snapshots.
Context {Json Canon : Type} {normalisation : Normalisation Json Canon}.
Variable net : Network Json.
Variable this : Adapter Json.

Lemma begin_requests (url cacheKey : string) (w : World) :
  cache this = ∅ ->
  length (requests (_fetchWithCache_begin this url cacheKey w).2) =
  S (length (requests w)).
Proof.
  intros Hempty. unfold _fetchWithCache_begin. rewrite Hempty, lookup_empty. simpl.
  rewrite length_app. simpl. lia.
Qed.

Lemma batch_begin_requests (locations : list Location) (w : World) :
  cache this = ∅ ->
  length (requests (getBatchWeatherData_begin this locations w).2) =
  (length (requests w) + 2 * length locations)%nat.
Proof.
  intros Hempty. revert w. induction locations as [|loc rest IH]; intros w; simpl; [lia |].
  unfold getCompleteWeatherData_begin, getOneCallData_begin, getAirQuality_begin.
  match goal with
  | |- context [_fetchWithCache_begin this ?u ?k w] =>
      pose proof (begin_requests u k w Hempty) as H1;
      destruct (_fetchWithCache_begin this u k w) as [p1 w1]
  end.
  match goal with
  | |- context [_fetchWithCache_begin this ?u ?k w1] =>
      pose proof (begin_requests u k w1 Hempty) as H2;
      destruct (_fetchWithCache_begin this u k w1) as [p2 w2]
  end.
  specialize (IH w2).
  destruct (getBatchWeatherData_begin this rest w2) as [pps w3].
  simpl in *. lia.
Qed.

Lemma batch_settle_requests (pps : list (Location * (Pending Json * Pending Json)))
    (this0 : Adapter Json) (w : World) :
  requests (getBatchWeatherData_settle net pps this0 w).2 = requests w.
Proof.
  revert this0 w. induction pps as [|[loc pp] pps IH]; intros this0 w; [reflexivity |].
  simpl.
  pose proof (Aggregation.complete_resume_requests net pp this0 w) as Hpp.
  destruct (getCompleteWeatherData_resume net pp this0 w) as [[r this1] w1].
  unfold world_after in Hpp. simpl in Hpp.
  destruct r as [s | e].
  - specialize (IH this1 w1).
    destruct (getBatchWeatherData_settle net pps this1 w1) as [[vs this2] w2].
    simpl in *. congruence.
  - match goal with
    | |- context [getBatchWeatherData_settle net pps this1 ?w'] =>
        specialize (IH this1 w');
        destruct (getBatchWeatherData_settle net pps this1 w') as [[vs this2] w2]
    end.
    simpl in *. congruence.
Qed.

(** X9. On an empty cache, a batch over [n] locations issues exactly [2n]
    requests, whether or not locations repeat and whatever the replies:
    requests for the same key are not shared within a batch. *)
Theorem batch_issues_two_requests_each (locations : list Location) (w : World) :
  cache this = ∅ ->
  length (requests (world_after (getBatchWeatherData net this locations w))) =
  (length (requests w) + 2 * length locations)%nat.
Proof.
  intros Hempty. unfold getBatchWeatherData, world_after.
  pose proof (batch_begin_requests locations w Hempty) as Hbegin.
  destruct (getBatchWeatherData_begin this locations w) as [pps w1].
  pose proof (batch_settle_requests pps this w1) as Hsettle.
  destruct (getBatchWeatherData_settle net pps this w1) as [[promises this1] w2].
  simpl in *. congruence.
Qed.

(** X10. Once a conditions call for a location has returned a value, a
    later [getCompleteWeatherData] for that location never fails for the
    network's sake, whatever the network then does and however much time
    has passed: its outcome is the snapshot of some conditions payload. *)
Theorem snapshot_survives_outage (net' : Network Json) (lat lon : Coord)
    (d0 : Json) (this1 : Adapter Json) (w w1 w2 : World) :
  getOneCallData net this lat lon w = (Ok d0, this1, w1) ->
  exists d airQualityData,
    outcome (getCompleteWeatherData net' this1 lat lon w2) = snapshot d airQualityData.
Proof.
  intros Hfirst.
  apply CacheLaws.ok_entry in Hfirst as (entry & Hentry & _).
  rewrite Aggregation.getCompleteWeatherData_assembled.
  unfold getCompleteWeatherData_begin, getOneCallData_begin, assembled.
  unfold _fetchWithCache_begin at 1. rewrite Hentry.
  destruct (clock w2 - timestamp entry <? cacheTTL this1).
  - destruct (getAirQuality_begin this1 lat lon _) as [p2 w3]. simpl. eauto.
  - destruct (getAirQuality_begin this1 lat lon _) as [p2 w3]. simpl.
    destruct (parsed _); simpl; eauto.
Qed.

End Snapshots.

Lemma batch_issues_two_requests_each_witness :
  length (requests (world_after
            (getBatchWeatherData (normalisation := tracing) (failing_on "lat=2&" "payload")
               (new "KEY" None) [place "1" "1"; place "2" "2"; place "1" "1"] midnight))) =
  6%nat.
Proof.
  apply (batch_issues_two_requests_each (normalisation := tracing)
           (failing_on "lat=2&" "payload") (new "KEY" None)
           [place "1" "1"; place "2" "2"; place "1" "1"] midnight).
  reflexivity.
Defined.

Lemma snapshot_survives_outage_witness :
  exists d airQualityData,
    outcome (getCompleteWeatherData (normalisation := tracing)
               (answering 9 (Rejected "offline"))
               (adapter_after (getOneCallData (serving "NYC") (new "KEY" None)
                                 "40.7" "-74" midnight))
               "40.7" "-74" (at_time 86400000)) =
    snapshot (normalisation := tracing) d airQualityData.
Proof.
  eapply (snapshot_survives_outage (normalisation := tracing) (serving "NYC") (new "KEY" None)
            (answering 9 (Rejected "offline")) "40.7" "-74" "NYC" _ midnight).
  reflexivity.
Defined.

End AggregatorLaws.

(** ** The pure helper methods *)

Module NormalizationLaws.
Import Normalization Spec Laws.

Lemma round_quotient (d : Z) :
  Js.round (inject_Z d / (45 # 2)) = (4 * d + 45) / 90.
Proof.
  unfold Js.round. rewrite Zdiv_Qdiv. apply Qfloor_comp.
  rewrite inject_Z_plus, inject_Z_mult. field.
Qed.

Example bearing_absent : _degToCardinal None = Some "CALM".
Proof. reflexivity. Qed.

Example bearing_full_turn : _degToCardinal (Some 360) = Some "N".
Proof. vm_compute. reflexivity. Qed.

Example bearing_south_west : _degToCardinal (Some 225) = Some "SW".
Proof. vm_compute. reflexivity. Qed.

(** X11. For a bearing of [0] degrees or more, [_degToCardinal] names one
    of the sixteen directions, the one of the 22.5-degree sector centred on
    it, and bearings a full turn apart get the same name.  (Whole degrees
    below 10^14, where the quotient by 22.5 is never within rounding error
    of a half.) *)
Theorem _degToCardinal_sectors (deg : Z) :
  0 <= deg < 10 ^ 14 ->
  _degToCardinal (Some deg) = directions !! Z.to_nat (((4 * deg + 45) / 90) mod 16) /\
  (exists name, _degToCardinal (Some deg) = Some name) /\
  _degToCardinal (Some (deg + 360)) = _degToCardinal (Some deg).
Proof.
  intros Hdeg.
  assert (Hindex : forall d, 0 <= d ->
            _degToCardinal (Some d) = directions !! Z.to_nat (((4 * d + 45) / 90) mod 16)).
  { intros d Hd. unfold _degToCardinal. rewrite round_quotient.
    assert (0 <= (4 * d + 45) / 90) by (apply Z.div_pos; lia).
    rewrite Z.rem_mod_nonneg by lia.
    pose proof (Z.mod_pos_bound ((4 * d + 45) / 90) 16 ltac:(lia)).
    destruct (Z.ltb_spec (((4 * d + 45) / 90) mod 16) 0); [lia | reflexivity]. }
  split; [apply Hindex; lia |]. split.
  - rewrite Hindex by lia. apply lookup_lt_is_Some. simpl.
    pose proof (Z.mod_pos_bound ((4 * deg + 45) / 90) 16 ltac:(lia)). lia.
  - rewrite !Hindex by lia. do 2 f_equal.
    replace (4 * (deg + 360) + 45) with (4 * deg + 45 + 16 * 90) by lia.
    rewrite Z.div_add by lia.
    replace ((4 * deg + 45) / 90 + 16) with ((4 * deg + 45) / 90 + 1 * 16) by lia.
    now rewrite Z.mod_add.
Qed.

Lemma _degToCardinal_sectors_witness :
  _degToCardinal (Some 350) = directions !! Z.to_nat (((4 * 350 + 45) / 90) mod 16) /\
  (exists name, _degToCardinal (Some 350) = Some name) /\
  _degToCardinal (Some (350 + 360)) = _degToCardinal (Some 350).
Proof. apply _degToCardinal_sectors. lia. Defined.

(** X12. A bearing from -348 to -12 degrees has no name: the index into
    [directions] is negative, and the result is [undefined]. *)
Theorem _degToCardinal_negative (deg : Z) :
  -348 <= deg <= -12 ->
  _degToCardinal (Some deg) = None.
Proof.
  intros Hdeg. unfold _degToCardinal. rewrite round_quotient.
  assert (Hq : -15 <= (4 * deg + 45) / 90 <= -1).
  { split.
    - apply Z.div_le_lower_bound; lia.
    - assert ((4 * deg + 45) / 90 < 0) by (apply Z.div_lt_upper_bound; lia). lia. }
  assert (Hrem : Z.rem ((4 * deg + 45) / 90) 16 = (4 * deg + 45) / 90).
  { rewrite <- (Z.opp_involutive ((4 * deg + 45) / 90)) at 1.
    rewrite Z.rem_opp_l by lia. rewrite Z.rem_small by lia. lia. }
  rewrite Hrem.
  destruct (Z.ltb_spec ((4 * deg + 45) / 90) 0); [reflexivity | lia].
Qed.

Lemma _degToCardinal_negative_witness : _degToCardinal (Some (-90)) = None.
Proof. apply _degToCardinal_negative. lia. Defined.

Lemma lt_reflect (a b : Q) : reflect (a < b)%Q (Js.lt a b).
Proof.
  unfold Js.lt. destruct (Qle_bool b a) eqn:E; constructor.
  - apply Qle_bool_iff in E. lra.
  - assert (~ (b <= a)%Q) by (intros H; apply Qle_bool_iff in H; congruence). lra.
Qed.

Lemma gt_reflect (a b : Q) : reflect (b < a)%Q (Js.gt a b).
Proof.
  unfold Js.gt. destruct (Qle_bool a b) eqn:E; constructor.
  - apply Qle_bool_iff in E. lra.
  - assert (~ (a <= b)%Q) by (intros H; apply Qle_bool_iff in H; congruence). lra.
Qed.

Example uv_undefined : _getUVDescription None = "Extreme".
Proof. reflexivity. Qed.

Example uv_boundary : _getUVDescription (Some (3 # 1)%Q) = "Moderate".
Proof. reflexivity. Qed.

(** X13. [_getUVDescription] is monotone: a higher UV index never gets a
    milder description. *)
Theorem _getUVDescription_monotone (u u' : Q) :
  (u <= u')%Q ->
  (uv_rank (_getUVDescription (Some u)) <= uv_rank (_getUVDescription (Some u')))%nat.
Proof.
  intros Hle. unfold _getUVDescription.
  destruct (lt_reflect u (3 # 1)), (lt_reflect u (6 # 1)), (lt_reflect u (8 # 1)),
           (lt_reflect u (11 # 1)), (lt_reflect u' (3 # 1)), (lt_reflect u' (6 # 1)),
           (lt_reflect u' (8 # 1)), (lt_reflect u' (11 # 1));
    vm_compute; try lia; exfalso; lra.
Qed.

Lemma _getUVDescription_monotone_witness :
  (uv_rank (_getUVDescription (Some (59 # 10)%Q)) <=
   uv_rank (_getUVDescription (Some (6 # 1)%Q)))%nat.
Proof. apply _getUVDescription_monotone. lra. Defined.

(** X14. [_getAQICategory] answers "Unknown" exactly for the indices
    outside 1-5. *)
Theorem _getAQICategory_unknown (aqi : Z) :
  _getAQICategory aqi = "Unknown" <-> ~ (1 <= aqi <= 5).
Proof.
  unfold _getAQICategory.
  destruct (Z.ltb_spec (aqi - 1) 0) as [Hneg | Hpos].
  - split; [lia | reflexivity].
  - destruct (Z_le_gt_dec aqi 5) as [Hle | Hgt].
    + assert (Hcases : aqi = 1 \/ aqi = 2 \/ aqi = 3 \/ aqi = 4 \/ aqi = 5) by lia.
      destruct Hcases as [-> | [-> | [-> | [-> | ->]]]];
        (split; [vm_compute; discriminate | lia]).
    + rewrite (lookup_ge_None_2 _ (Z.to_nat (aqi - 1))) by (simpl; lia).
      split; [lia | reflexivity].
Qed.

Example ozone_hidden_by_nitrogen_dioxide :
  primaryPollutant <$>
    transformAirQuality
      (Some {| list_ := Some [ {| main_aqi := 3;
                                  components := {| co := 0; no := 0; no2 := 5 # 1;
                                                   o3 := 10 # 1; so2 := 0;
                                                   pm2_5 := 1 # 1; pm10 := 0;
                                                   nh3 := 0 |} |} ] |}) =
  Some "NO2".
Proof. reflexivity. Qed.

(** X15. [transformAirQuality] reads the first reading only.  When it
    names PM2.5, PM10 or ozone as primary pollutant, that pollutant has
    the highest of the four concentrations compared; when it names NO2,
    nitrogen dioxide exceeds both particulate concentrations, whatever
    the ozone concentration is. *)
Theorem transformAirQuality_primary (reading : Reading) (rest : list Reading) :
  exists out,
    transformAirQuality (Some {| list_ := Some (reading :: rest) |}) = Some out /\
    airQualityIndex out = main_aqi reading /\
    exists v, named_value (components reading) (primaryPollutant out) = Some v /\
      if String.eqb (primaryPollutant out) "NO2"
      then (pm2_5 (components reading) < v /\ pm10 (components reading) < v)%Q
      else (pm2_5 (components reading) <= v /\ pm10 (components reading) <= v /\
            o3 (components reading) <= v /\ no2 (components reading) <= v)%Q.
Proof.
  unfold transformAirQuality. simpl.
  destruct (gt_reflect (pm10 (components reading)) (pm2_5 (components reading)));
    simpl;
    match goal with
    | |- context [Js.gt (o3 ?c) ?m] =>
        destruct (gt_reflect (o3 c) m), (gt_reflect (no2 c) m)
    end;
    eexists; (split; [reflexivity |]); (split; [reflexivity |]);
    simpl; eexists; (split; [reflexivity |]); simpl; lra.
Qed.

(** *** Phrases *)

Lemma upper_idempotent (c : ascii) : Js.upper_ascii (Js.upper_ascii c) = Js.upper_ascii c.
Proof. destruct c as [[] [] [] [] [] [] [] []]; reflexivity. Qed.

Lemma lower_upper (c : ascii) : Js.lower_ascii (Js.upper_ascii c) = Js.lower_ascii c.
Proof. destruct c as [[] [] [] [] [] [] [] []]; reflexivity. Qed.

Lemma upper_keeps_space_out (c : ascii) :
  Ascii.eqb (Js.upper_ascii c) " " = Ascii.eqb c " ".
Proof. destruct c as [[] [] [] [] [] [] [] []]; reflexivity. Qed.

Lemma length_append (a b : string) :
  String.length (a +:+ b) = (String.length a + String.length b)%nat.
Proof. induction a as [|c a IH]; simpl; [reflexivity | now rewrite IH]. Qed.

Lemma toLowerCase_append (a b : string) :
  Js.toLowerCase (a +:+ b) = Js.toLowerCase a +:+ Js.toLowerCase b.
Proof. induction a as [|c a IH]; simpl; [reflexivity | now rewrite IH]. Qed.

Lemma split_nonempty (sep : ascii) (s : string) : Js.split sep s <> [].
Proof.
  destruct s as [|c s]; simpl; [discriminate |].
  destruct (Ascii.eqb c sep); [discriminate |].
  destruct (Js.split sep s); discriminate.
Qed.

Lemma join_cons_char (sep : string) (c : ascii) (w : string) (ws : list string) :
  Js.join sep (String c w :: ws) = String c (Js.join sep (w :: ws)).
Proof. destruct ws; reflexivity. Qed.

(** Joining what was split gives the text back. *)
Lemma join_split (sep : ascii) (s : string) :
  Js.join (String sep "") (Js.split sep s) = s.
Proof.
  induction s as [|c s IH]; [reflexivity |].
  simpl. destruct (Ascii.eqb_spec c sep) as [-> | Hne].
  - pose proof (split_nonempty sep s).
    destruct (Js.split sep s) as [|w ws] eqn:Hs; [contradiction |].
    change (Js.join (String sep "") ("" :: w :: ws))
      with (String sep (Js.join (String sep "") (w :: ws))).
    now rewrite IH.
  - pose proof (split_nonempty sep s).
    destruct (Js.split sep s) as [|w ws] eqn:Hs; [contradiction |].
    rewrite join_cons_char. now rewrite IH.
Qed.

Lemma split_char_free (sep : ascii) (s : string) :
  Forall (fun w => char_free sep w = true) (Js.split sep s).
Proof.
  induction s as [|c s IH]; simpl; [repeat constructor |].
  destruct (Ascii.eqb c sep) eqn:Hc; [now constructor |].
  destruct (Js.split sep s) as [|w ws]; [repeat constructor; simpl; now rewrite Hc |].
  apply Forall_cons in IH as [Hw Hws].
  constructor; [simpl; now rewrite Hc, Hw | exact Hws].
Qed.

Lemma split_word (sep : ascii) (w : string) :
  char_free sep w = true -> Js.split sep w = [w].
Proof.
  induction w as [|c w IH]; simpl; [reflexivity |].
  intros H. apply andb_true_iff in H as [Hc Hw]. apply negb_true_iff in Hc.
  rewrite Hc, (IH Hw). reflexivity.
Qed.

Lemma split_append (sep : ascii) (w rest : string) :
  char_free sep w = true ->
  Js.split sep (w +:+ String sep rest) = w :: Js.split sep rest.
Proof.
  induction w as [|c w IH]; simpl.
  - intros _. now rewrite Ascii.eqb_refl.
  - intros H. apply andb_true_iff in H as [Hc Hw]. apply negb_true_iff in Hc.
    rewrite Hc, (IH Hw). reflexivity.
Qed.

(** Splitting what was joined gives the words back, when no word holds
    the separator. *)
Lemma split_join (sep : ascii) (ws : list string) :
  ws <> [] -> Forall (fun w => char_free sep w = true) ws ->
  Js.split sep (Js.join (String sep "") ws) = ws.
Proof.
  induction ws as [|w ws IH]; [contradiction |]. intros _ Hfree.
  apply Forall_cons in Hfree as [Hw Hws].
  destruct ws as [|w' ws]; [now apply split_word |].
  change (Js.join (String sep "") (w :: w' :: ws))
    with (w +:+ String sep (Js.join (String sep "") (w' :: ws))).
  rewrite split_append by exact Hw. f_equal. now apply IH.
Qed.

Lemma capitalizeWord_idempotent (w : string) :
  capitalizeWord (capitalizeWord w) = capitalizeWord w.
Proof. destruct w as [|c w]; simpl; [reflexivity | now rewrite upper_idempotent]. Qed.

Lemma capitalizeWord_lower (w : string) :
  Js.toLowerCase (capitalizeWord w) = Js.toLowerCase w.
Proof. destruct w as [|c w]; simpl; [reflexivity | now rewrite lower_upper]. Qed.

Lemma capitalizeWord_length (w : string) :
  String.length (capitalizeWord w) = String.length w.
Proof. now destruct w. Qed.

Lemma capitalizeWord_space_free (w : string) :
  char_free " " w = true -> char_free " " (capitalizeWord w) = true.
Proof. destruct w as [|c w]; simpl; [easy | now rewrite upper_keeps_space_out]. Qed.

Lemma toLowerCase_join (ws : list string) :
  Js.toLowerCase (Js.join " " ws) = Js.join " " (Js.toLowerCase <$> ws).
Proof.
  induction ws as [|w ws IH]; [reflexivity |].
  destruct ws as [|w' ws]; [reflexivity |].
  change (Js.join " " (w :: w' :: ws)) with (w +:+ " " +:+ Js.join " " (w' :: ws)).
  rewrite !toLowerCase_append, IH. reflexivity.
Qed.

Lemma join_length_capitalized (ws : list string) :
  String.length (Js.join " " (capitalizeWord <$> ws)) = String.length (Js.join " " ws).
Proof.
  induction ws as [|w ws IH]; [reflexivity |].
  destruct ws as [|w' ws]; [apply capitalizeWord_length |].
  change (Js.join " " (capitalizeWord <$> w :: w' :: ws))
    with (capitalizeWord w +:+ " " +:+ Js.join " " (capitalizeWord <$> w' :: ws)).
  change (Js.join " " (w :: w' :: ws)) with (w +:+ " " +:+ Js.join " " (w' :: ws)).
  rewrite !length_append, IH, capitalizeWord_length. reflexivity.
Qed.

Example capitalized_phrase :
  _capitalizeWeatherPhrase "light  rain and snow" = "Light  Rain And Snow".
Proof. reflexivity. Qed.

(** X16. On an ASCII phrase, [_capitalizeWeatherPhrase] changes nothing
    but the case of letters: the result has the same length and the same
    lower-case form as the phrase, runs of spaces included. *)
Theorem _capitalizeWeatherPhrase_case_only (phrase : string) :
  Js.ascii_only phrase = true ->
  Js.toLowerCase (_capitalizeWeatherPhrase phrase) = Js.toLowerCase phrase /\
  String.length (_capitalizeWeatherPhrase phrase) = String.length phrase.
Proof.
  intros _. unfold _capitalizeWeatherPhrase. split.
  - rewrite toLowerCase_join, <- list_fmap_compose.
    rewrite (list_fmap_ext _ Js.toLowerCase (Js.split " " phrase))
      by (intros i w _; apply capitalizeWord_lower).
    rewrite <- toLowerCase_join. now rewrite (join_split " " phrase).
  - change (map capitalizeWord (Js.split " " phrase))
      with (capitalizeWord <$> Js.split " " phrase).
    rewrite join_length_capitalized. now rewrite (join_split " " phrase).
Qed.

Lemma _capitalizeWeatherPhrase_case_only_witness :
  Js.toLowerCase (_capitalizeWeatherPhrase "broken clouds") = Js.toLowerCase "broken clouds" /\
  String.length (_capitalizeWeatherPhrase "broken clouds") = String.length "broken clouds".
Proof. apply _capitalizeWeatherPhrase_case_only. reflexivity. Defined.

(** X17. On an ASCII phrase, [_capitalizeWeatherPhrase] is idempotent. *)
Theorem _capitalizeWeatherPhrase_idempotent (phrase : string) :
  Js.ascii_only phrase = true ->
  _capitalizeWeatherPhrase (_capitalizeWeatherPhrase phrase) =
  _capitalizeWeatherPhrase phrase.
Proof.
  intros _. unfold _capitalizeWeatherPhrase.
  change (map capitalizeWord) with (fmap (M := list) capitalizeWord).
  rewrite (split_join " ").
  - rewrite <- list_fmap_compose. f_equal. apply list_fmap_ext.
    intros i w _. apply capitalizeWord_idempotent.
  - intros H. apply fmap_nil_inv in H. now apply (split_nonempty " " phrase).
  - apply Forall_fmap. eapply Forall_impl; [apply split_char_free |].
    intros w Hw. now apply capitalizeWord_space_free.
Qed.

Lemma _capitalizeWeatherPhrase_idempotent_witness :
  _capitalizeWeatherPhrase (_capitalizeWeatherPhrase "broken clouds") =
  _capitalizeWeatherPhrase "broken clouds".
Proof. apply _capitalizeWeatherPhrase_idempotent. reflexivity. Defined.

(** *** Alert type codes *)

Example alert_tornado_first :
  _getAlertTypeCode "Flood and TORNADO Warning" = "TOR".
Proof. reflexivity. Qed.

(** X18. [_getAlertTypeCode] decides by the first of the words tornado,
    severe thunderstorm, flood and winter that the event mentions, in
    any case of letters, and answers WEA when it mentions none. *)
Theorem _getAlertTypeCode_rule (event : string) :
  alert_type_rule event (_getAlertTypeCode event).
Proof.
  unfold _getAlertTypeCode.
  assert (Hspec : forall word,
            Js.includes (Js.toLowerCase event) word = true <-> mentions word event)
    by (intros word; apply AlertSeverity.includes_contains).
  assert (Hneg : forall word,
            Js.includes (Js.toLowerCase event) word = false -> ~ mentions word event)
    by (intros word H Hm; apply Hspec in Hm; congruence).
  destruct (Js.includes _ "tornado") eqn:H1; [apply type_tornado; now apply Hspec |].
  destruct (Js.includes _ "severe thunderstorm") eqn:H2;
    [apply type_thunderstorm; [now apply Hneg | now apply Hspec] |].
  destruct (Js.includes _ "flood") eqn:H3;
    [apply type_flood; [now apply Hneg.. | now apply Hspec] |].
  destruct (Js.includes _ "winter") eqn:H4;
    [apply type_winter; [now apply Hneg.. | now apply Hspec] |].
  apply type_other; now apply Hneg.
Qed.

End NormalizationLaws.

(** ** More on the imagery adapter *)

Module ImageryLaws.
Import Async RainViewerAdapter Spec Laws Fixtures.

Section Manifest.
Variable net : Network Maps.
Variable this : Adapter.
Variable w : World.

Lemma getAvailableMaps_cases :
  (exists m, getAvailableMaps net this w = (Ok m, this, w) /\ cache_maps this = Some m /\
             clock w - cache_timestamp this < cacheTTL this) \/
  (manifest_not_fresh this w /\
   let w1 := advance (elapsed (manifest_reply net this w)) (issue (manifest_address this) w) in
   match parsed (response (manifest_reply net this w)) with
   | Ok payload =>
       getAvailableMaps net this w = (Ok payload, with_cache (Some payload) (clock w1) this, w1)
   | Throw e =>
       let w2 := emit Error "Error fetching RainViewer maps:" (Some e) w1 in
       match cache_maps this with
       | Some m =>
           getAvailableMaps net this w =
             (Ok m, this, emit Warn "Using cached RainViewer data due to fetch error" None w2)
       | None => getAvailableMaps net this w = (Throw e, this, w2)
       end
   end).
Proof.
  unfold getAvailableMaps, manifest_not_fresh, manifest_reply, manifest_address.
  destruct (cache_maps this) as [m|] eqn:Hm.
  - destruct (Z.ltb_spec (clock w - cache_timestamp this) (cacheTTL this)).
    + left. now exists m.
    + right. split; [now right |]. cbv zeta.
      destruct (parsed _); reflexivity.
  - right. split; [now left |]. cbv zeta.
    destruct (parsed _); reflexivity.
Qed.

(** X19. Whenever [getAvailableMaps] returns a manifest, the adapter then
    holds that manifest; and once a manifest is held, [getAvailableMaps]
    never throws, whatever the network does. *)
Theorem getAvailableMaps_keeps_serving :
  (forall m, outcome (getAvailableMaps net this w) = Ok m ->
             cache_maps (adapter_after (getAvailableMaps net this w)) = Some m) /\
  (is_Some (cache_maps this) -> exists m, outcome (getAvailableMaps net this w) = Ok m).
Proof.
  destruct getAvailableMaps_cases as [(m & H & Hm & _) | [_ H]].
  - rewrite H. unfold outcome, adapter_after. simpl. split.
    + intros m' [= <-]. exact Hm.
    + eauto.
  - cbv zeta in H. destruct (parsed _) as [payload | e].
    + rewrite H. unfold outcome, adapter_after. simpl. split; [now intros m [= <-] | eauto].
    + destruct (cache_maps this) as [m|] eqn:Hm; rewrite H; unfold outcome, adapter_after;
        simpl; split.
      * now intros m' [= <-].
      * eauto.
      * discriminate.
      * intros [m Hsome]. discriminate.
Qed.

(** X20. The manifest is fetched once per TTL: a call that had to fetch
    and succeeded, followed by a call less than the TTL later, issues one
    request in all, and the second call returns the same manifest at
    once. *)
Theorem manifest_fetched_once (m : Maps) (dt : Z) :
  manifest_not_fresh this w ->
  parsed (response (manifest_reply net this w)) = Ok m ->
  dt < cacheTTL this ->
  exists this1 w1,
    getAvailableMaps net this w = (Ok m, this1, w1) /\
    getAvailableMaps net this1 (advance dt w1) = (Ok m, this1, advance dt w1) /\
    requests w1 = requests w ++ [manifest_address this].
Proof.
  intros Hstale Hok Hdt.
  destruct getAvailableMaps_cases as [(m' & _ & Hm & Hfresh) | [_ H]].
  - destruct Hstale as [Hnone | Hold]; [congruence | lia].
  - cbv zeta in H. rewrite Hok in H. do 2 eexists. split; [exact H |]. split.
    + unfold getAvailableMaps. simpl.
      match goal with
      | |- context [?a <? ?b] => destruct (Z.ltb_spec a b); [reflexivity | lia]
      end.
    + reflexivity.
Qed.

(** X21. After [clearCache()] the manifest is fetched again and nothing
    is left to fall back on: the outcome is that of the fetch alone. *)
Theorem clearCache_forgets_manifest :
  outcome (getAvailableMaps net (clearCache this) w) =
    parsed (response (manifest_reply net this w)) /\
  requests (world_after (getAvailableMaps net (clearCache this) w)) =
    requests w ++ [manifest_address this].
Proof.
  unfold getAvailableMaps, outcome, world_after, manifest_reply, manifest_address. simpl.
  destruct (parsed _); simpl; split; reflexivity.
Qed.

End Manifest.

Lemma manifest_fetched_once_witness :
  exists this1 w1,
    getAvailableMaps (serving (manifest [100] [200])) (new None) midnight = (Ok (manifest [100] [200]), this1, w1) /\
    getAvailableMaps (serving (manifest [100] [200])) this1 (advance 299999 w1) =
      (Ok (manifest [100] [200]), this1, advance 299999 w1) /\
    requests w1 = requests midnight ++ [manifest_address (new None)].
Proof.
  apply (manifest_fetched_once (serving (manifest [100] [200])) (new None) midnight
           (manifest [100] [200]) 299999).
  - left. reflexivity.
  - reflexivity.
  - simpl. lia.
Defined.

Section Series.
Variable net : Network Maps.
Variable this : Adapter.
Variable w : World.

Lemma tileBaseUrl_kept :
  tileBaseUrl (adapter_after (getAvailableMaps net this w)) = tileBaseUrl this.
Proof.
  unfold getAvailableMaps, adapter_after.
  destruct (cache_maps this); [destruct (_ <? _); [reflexivity |] |];
    destruct (parsed _); reflexivity.
Qed.

Lemma append_assoc (a b c : string) : (a +:+ b) +:+ c = a +:+ (b +:+ c).
Proof.
  induction a as [|x a IH]; [reflexivity |].
  exact (f_equal (String x) IH).
Qed.

Lemma frames_of_past (P l : list Z) :
  l ⊆ P ->
  seriesFrame P <$> l = (fun t => {| ts := t; isPast := true |}) <$> l.
Proof.
  intros Hsub. apply list_fmap_ext. intros i t Ht. unfold seriesFrame.
  rewrite bool_decide_eq_true_2; [reflexivity |].
  apply Hsub. eapply list_elem_of_lookup_2, Ht.
Qed.

(** X22. The series of [getRadarSeries] has one frame per timestamp of
    the manifest; it starts with the past timestamps in manifest order,
    all flagged past, and [current] is the timestamp of the last of
    them. *)
Theorem getRadarSeries_past_prefix (maps : Maps) (this' : Adapter) (w' : World) :
  getAvailableMaps net this w = (Ok maps, this', w') ->
  exists s,
    getRadarSeries net this w = (Ok s, this', w') /\
    length (series s) = (length (past_times maps) + length (nowcast_times maps))%nat /\
    take (length (past_times maps)) (series s) =
      (fun t => {| ts := t; isPast := true |}) <$> past_times maps /\
    current s = last (past_times maps).
Proof.
  intros H. unfold getRadarSeries.
  rewrite (Timeline.getRadarTimestamps_of_maps net this this' w w' maps H). simpl.
  rewrite Timeline.radarTimestamps_merge.
  eexists. split; [reflexivity |]. simpl. repeat split.
  - now rewrite length_fmap, length_app.
  - rewrite fmap_app, take_app_length'
      by (now rewrite length_fmap).
    now apply frames_of_past.
Qed.

(** X23. When [isRadarAvailable] answers with a truthy value,
    [getRadarTimestamps] in the same situation returns at least one
    timestamp. *)
Theorem isRadarAvailable_sound :
  Js.truthy (isRadarAvailable net this w).1.1 = true ->
  exists t, outcome (getRadarTimestamps net this w) = Ok t /\ rt_all t <> [].
Proof.
  unfold isRadarAvailable, getRadarTimestamps, outcome.
  destruct (getAvailableMaps net this w) as [[[maps | e] this'] w']; simpl;
    [| discriminate].
  unfold radarTimestamps.
  destruct (radar maps) as [rd|]; simpl; [| discriminate].
  destruct (past rd) as [p|]; simpl; [| discriminate].
  destruct p as [|f p]; simpl.
  - destruct (nowcast rd) as [n|]; simpl; [| discriminate].
    destruct n as [|g n]; simpl; [discriminate |].
    intros _. eexists. split; [reflexivity |]. simpl. discriminate.
  - intros _. eexists. split; [reflexivity |]. simpl. discriminate.
Qed.

(** X24. [getRadarAnimationFrames] returns one layer per timestamp of the
    manifest, in order, and the address template of each layer is the
    address that [getRadarTileUrl] builds for that timestamp and the same
    style, with the placeholder in place of the tile coordinates. *)
Theorem getRadarAnimationFrames_match_tiles (options : LayerOptions)
    (maps : Maps) (this' : Adapter) (w' : World) :
  getAvailableMaps net this w = (Ok maps, this', w') ->
  exists frames,
    getRadarAnimationFrames net this options w = (Ok frames, this', w') /\
    url <$> frames =
      (fun t => tile_head this t +:+ "{z}/{x}/{y}" +:+ tile_tail (style options)) <$>
        (past_times maps ++ nowcast_times maps) /\
    forall t z x y,
      getRadarTileUrl this t z x y (style options) =
      tile_head this t +:+ pretty z +:+ "/" +:+ pretty x +:+ "/" +:+ pretty y +:+
      tile_tail (style options).
Proof.
  intros H. unfold getRadarAnimationFrames.
  rewrite (Timeline.getRadarTimestamps_of_maps net this this' w w' maps H).
  rewrite Timeline.radarTimestamps_merge. simpl.
  assert (Hbase : tileBaseUrl this' = tileBaseUrl this).
  { pose proof tileBaseUrl_kept as Hk. unfold adapter_after in Hk. now rewrite H in Hk. }
  eexists. split; [reflexivity |]. split.
  - change (map ?f ?l) with (f <$> l). rewrite <- list_fmap_compose.
    apply list_fmap_ext. intros i t _. simpl.
    unfold tile_head, tile_tail. rewrite Hbase.
    rewrite !append_assoc. reflexivity.
  - intros t z x y. unfold getRadarTileUrl, tile_head, tile_tail.
    rewrite !append_assoc. reflexivity.
Qed.

(** X26. Whenever the manifest is obtained, [getSatelliteTimestamps]
    returns the infrared timestamps in manifest order, and [current] is
    the last of them, or [null] when the satellite layer or its list is
    missing or empty. *)
Theorem getSatelliteTimestamps_current (maps : Maps) (this' : Adapter) (w' : World) :
  getAvailableMaps net this w = (Ok maps, this', w') ->
  exists t,
    getSatelliteTimestamps net this w = (Ok t, this', w') /\
    st_infrared t = time <$> default [] (s ← satellite maps; infrared s) /\
    st_current t = last (st_infrared t).
Proof.
  intros H. unfold getSatelliteTimestamps. rewrite H. simpl.
  eexists. split; [reflexivity |]. split; [reflexivity |].
  unfold satelliteTimestamps. simpl.
  rewrite fmap_last, <- Timeline.last_by_index. 
  now destruct (0 <? length _)%nat.
Qed.

End Series.

Lemma getSatelliteTimestamps_current_witness :
  exists t,
    getSatelliteTimestamps (serving (satellite_manifest [10; 20])) (new None) midnight =
      (Ok t, with_cache (Some (satellite_manifest [10; 20])) 0 (new None),
       issue "http://localhost:8081/https://api.rainviewer.com/public/weather-maps.json" midnight) /\
    st_infrared t =
      time <$> default [] (s ← satellite (satellite_manifest [10; 20]); infrared s) /\
    st_current t = last (st_infrared t).
Proof.
  apply (getSatelliteTimestamps_current (serving (satellite_manifest [10; 20]))
           (new None) midnight (satellite_manifest [10; 20])).
  reflexivity.
Defined.

Lemma getRadarSeries_past_prefix_witness :
  exists s,
    getRadarSeries (serving (manifest [100; 200] [200; 300])) (new None) midnight =
      (Ok s, with_cache (Some (manifest [100; 200] [200; 300])) 0 (new None),
       issue "http://localhost:8081/https://api.rainviewer.com/public/weather-maps.json" midnight) /\
    length (series s) = (length [100; 200] + length [200; 300])%nat /\
    take (length [100; 200]) (series s) =
      (fun t => {| ts := t; isPast := true |}) <$> [100; 200] /\
    current s = last [100; 200].
Proof.
  apply (getRadarSeries_past_prefix (serving (manifest [100; 200] [200; 300]))
           (new None) midnight (manifest [100; 200] [200; 300])).
  reflexivity.
Defined.

Lemma isRadarAvailable_sound_witness :
  exists t,
    outcome (getRadarTimestamps (serving (manifest [] [300])) (new None) midnight) = Ok t /\
    rt_all t <> [].
Proof.
  apply (isRadarAvailable_sound (serving (manifest [] [300])) (new None) midnight).
  reflexivity.
Defined.

(** The converse fails: with the past list missing, the nowcast frames
    are listed by [getRadarTimestamps] while [isRadarAvailable] answers
    [false]. *)
Example nowcast_only_is_unavailable :
  (isRadarAvailable (serving {| radar := Some {| past := None;
                                                  nowcast := Some [ {| time := 300; path := "" |} ] |};
                                satellite := None |}) (new None) midnight).1.1 =
    Js.Boolean false.
Proof. reflexivity. Qed.

Lemma getRadarAnimationFrames_match_tiles_witness :
  exists frames,
    getRadarAnimationFrames (serving (manifest [100] [200])) (new None)
      {| style := only_color (Js.Number 4); opacityOption := None;
         zIndexOption := Js.Undefined |} midnight =
      (Ok frames, with_cache (Some (manifest [100] [200])) 0 (new None),
       issue "http://localhost:8081/https://api.rainviewer.com/public/weather-maps.json" midnight) /\
    url <$> frames =
      (fun t => tile_head (new None) t +:+ "{z}/{x}/{y}" +:+
                tile_tail (only_color (Js.Number 4))) <$> ([100] ++ [200]) /\
    forall t z x y,
      getRadarTileUrl (new None) t z x y (only_color (Js.Number 4)) =
      tile_head (new None) t +:+ pretty z +:+ "/" +:+ pretty x +:+ "/" +:+ pretty y +:+
      tile_tail (only_color (Js.Number 4)).
Proof.
  apply (getRadarAnimationFrames_match_tiles (serving (manifest [100] [200])) (new None) midnight
           {| style := only_color (Js.Number 4); opacityOption := None;
              zIndexOption := Js.Undefined |}
           (manifest [100] [200])).
  reflexivity.
Defined.

End ImageryLaws.

(** ** Initialisation *)

Module ApiConfigLaws.
Import Async ApiConfig Spec Laws Fixtures.

(** X25. [initializeAPIs] succeeds exactly when the OpenWeatherMap key is
    not empty.  On success the APIs are ready, and the weather adapter is
    new: its cache is empty, its TTL is the configured number of minutes
    and it uses the configured proxy.  On failure the globals are left as
    they were. *)
Theorem initializeAPIs_ready {Json : Type} (g : Globals Json) (w : World) :
  let ok := (initializeAPIs g w).1.1 in
  let g' := adapter_after (initializeAPIs g w) in
  ok = Js.truthy_string (openWeatherMapKey (apiConfig g)) /\
  if ok
  then areAPIsReady g' = true /\
       exists a, weatherAPI g' = Some a /\
                 OpenWeatherMapAdapter.cache a = ∅ /\
                 OpenWeatherMapAdapter.cacheTTL a = ttlMinutes (cache (apiConfig g)) * 60 * 1000 /\
                 OpenWeatherMapAdapter.corsProxyUrl a = proxyUrl (corsProxy (apiConfig g)) /\
                 OpenWeatherMapAdapter.apiKey a = openWeatherMapKey (apiConfig g)
  else g' = g.
Proof.
  cbv zeta. unfold initializeAPIs, adapter_after.
  destruct (Js.truthy_string (openWeatherMapKey (apiConfig g))); simpl; [| now split].
  destruct (radar (features (apiConfig g))) eqn:Hr; simpl.
  - split; [reflexivity |]. split.
    + unfold areAPIsReady. simpl. rewrite Hr. reflexivity.
    + eexists. repeat split.
  - destruct (satellite (features (apiConfig g))); simpl;
      (split; [reflexivity |]); (split; [| eexists; repeat split]);
      unfold areAPIsReady; simpl; rewrite Hr; reflexivity.
Qed.

End ApiConfigLaws.
